(** * terra-pr-commenter: the plan-change pipeline of [src/main.ts]

    A shallow embedding of the body of [run]: the redaction of sensitive
    attributes, the resolution of the overall action of a resource change,
    the rendering and clean-up of the per-resource diff, the assembly of the
    comment body and the size check.

    Conventions of the model.
    - A parsed JSON object is a finite map from its own property names to
      values ([gmap string value]); the members it inherits from
      [Object.prototype] are the names of [object_prototype].  Reading a
      property gives [None] when the object has no own property of that
      name: [undefined], or an inherited member, which is equal to itself
      and to no value of the plan.
    - A JavaScript string is a Rocq string, one character for one code unit
      below 256; [.length] is [String.length].  The line terminators of the
      regular expressions among these characters are the line feed and the
      carriage return; the two others, U+2028 and U+2029, are not characters
      of the model.
    - The counters are natural numbers: they start at 0 and only ever grow
      by one.
    - The libraries [yaml] and [diff], and the constant [COMMENT_FOOTER]
      (imported from a module whose current version is not part of the
      sources), are parameters of the development, gathered in the class
      [Externals].
    - What GitHub answers to the calls of a run is a parameter of the run, a
      [GitHub]: a call that rejects ends the run in the [catch] of [run].

    The development also covers [findTFPlans] of [utils.ts], on a file
    system that is a tree and with [path.join] as a parameter, and the
    selection of the comments to delete of [pull-request.ts], on the list
    of comments the query returns. *)

From Stdlib Require Import Ascii.
From stdpp Require Import gmap strings list fin_maps pretty.

(** * Part I: definitions *)

(** ** Text *)

Definition LF : ascii := "010"%char.
Definition nl : string := String LF "".

Definition is_lf (c : ascii) : bool := Ascii.eqb c LF.

Definition CR : ascii := "013"%char.
Definition is_cr (c : ascii) : bool := Ascii.eqb c CR.

(** The character class [[+-]]. *)
Definition is_sign (c : ascii) : bool :=
  Ascii.eqb c "+"%char || Ascii.eqb c "-"%char.

(** *** Step 1: [changeDiff.replace(/^(?![+-]).*\n?/gm, '')]

    With the flag [m] a line starts at the start of the text and after a
    line feed or a carriage return, and [.] matches neither of the two.
    The pattern matches at the start of a line that does not begin with [+]
    or [-]; it takes the line up to its terminator, and the terminator too
    when it is a line feed.  The scanner below is the global replacement as
    a left-to-right pass: at the start of a line it decides whether the
    line is copied or dropped; a carriage return is always copied.  (The
    separators U+2028 and U+2029 end a line as the carriage return does;
    they are not among the characters of the model.) *)

Inductive scan : Type := LineStart | Keeping | Dropping.

Fixpoint drop_unchanged (st : scan) (s : string) : string :=
  match s with
  | EmptyString => EmptyString
  | String c rest =>
      match st with
      | LineStart =>
          if is_sign c then String c (drop_unchanged Keeping rest)
          else if is_lf c then drop_unchanged LineStart rest
          else if is_cr c then String c (drop_unchanged LineStart rest)
          else drop_unchanged Dropping rest
      | Keeping =>
          String c (drop_unchanged
                      (if is_lf c || is_cr c then LineStart else Keeping) rest)
      | Dropping =>
          if is_lf c then drop_unchanged LineStart rest
          else if is_cr c then String c (drop_unchanged LineStart rest)
          else drop_unchanged Dropping rest
      end
  end.

(** *** Step 2: [changeDiff.replace(/^-{}\n?/gm, '')] and
    [changeDiff.replace(/^\+{}\n?/gm, '')]

    The braces are literal.  The pattern matches the three characters
    [sign], [{], [}] at the start of a line (after a line feed or a carriage
    return), and a line feed if one follows directly; it is not anchored at
    the end of the line.  [Matched n] is the state inside a match with [n]
    characters of the marker still to drop. *)

Inductive strip : Type := AtStart | Inside | Matched (n : nat).

(** [strip_prefix p s] is [Some r] when [s] is [p] followed by [r]. *)
Fixpoint strip_prefix (p s : string) : option string :=
  match p, s with
  | EmptyString, _ => Some s
  | String a p', String b s' =>
      if Ascii.eqb a b then strip_prefix p' s' else None
  | String _ _, EmptyString => None
  end.

Definition empty_marker (sign : ascii) : string := String sign "{}".

Fixpoint strip_empty (sign : ascii) (st : strip) (s : string) : string :=
  match s with
  | EmptyString => EmptyString
  | String c rest =>
      match st with
      | AtStart =>
          match strip_prefix (empty_marker sign) s with
          | Some _ => strip_empty sign (Matched 2) rest
          | None =>
              String c (strip_empty sign
                          (if is_lf c || is_cr c then AtStart else Inside) rest)
          end
      | Inside =>
          String c (strip_empty sign
                      (if is_lf c || is_cr c then AtStart else Inside) rest)
      | Matched (S n) => strip_empty sign (Matched n) rest
      | Matched 0 =>
          if is_lf c then strip_empty sign AtStart rest
          else String c (strip_empty sign
                           (if is_cr c then AtStart else Inside) rest)
      end
  end.

(** The three replacements of "Sanitize diff to be more readable". *)
Definition sanitize_diff (changeDiff : string) : string :=
  strip_empty "+" AtStart
    (strip_empty "-" AtStart
       (drop_unchanged LineStart changeDiff)).

Definition separator : string :=
  "===================================================================".

(** Step 3, "Add diff heading": the template literal of lines 228-232. *)
Definition add_heading (resourceAddress changeDiff : string) : string :=
  nl +:+ "Resource: " +:+ resourceAddress +:+ nl +:+
  separator +:+ nl +:+
  changeDiff +:+ nl.

(** *** Lines

    The lines of a text, each with its line feed when it has one. *)
Fixpoint lines (s : string) : list string :=
  match s with
  | EmptyString => []
  | String c rest =>
      if is_lf c then nl :: lines rest
      else match lines rest with
           | [] => [String c ""]
           | l :: ls => String c l :: ls
           end
  end.

Definition unlines (ls : list string) : string :=
  foldr String.append "" ls.

(** A text without a carriage return. *)
Fixpoint no_cr (s : string) : Prop :=
  match s with
  | EmptyString => True
  | String c rest => is_cr c = false ∧ no_cr rest
  end.

(** A text without a line feed and without a carriage return. *)
Fixpoint single_line (s : string) : Prop :=
  match s with
  | EmptyString => True
  | String c rest => is_lf c = false ∧ is_cr c = false ∧ single_line rest
  end.

(** A list of strings whose concatenation has them as its lines: complete
    lines, possibly with empty strings in between, and possibly a last line
    without line feed; none has a carriage return. *)
Inductive line_list : list string → Prop :=
| ll_nil : line_list []
| ll_gap ls : line_list ls → line_list ("" :: ls)
| ll_line b ls : single_line b → line_list ls → line_list ((b +:+ nl) :: ls)
| ll_last b : single_line b → line_list [b].

(** A line without its line feed. *)
Fixpoint line_content (l : string) : string :=
  match l with
  | EmptyString => EmptyString
  | String c rest => if is_lf c then EmptyString else String c (line_content rest)
  end.

(** A line of a diff that records an addition or a deletion. *)
Definition change_line (l : string) : bool :=
  match l with
  | EmptyString => false
  | String c _ => is_sign c
  end.

(** What is left of a line after step 1. *)
Definition keep_change (l : string) : string :=
  if change_line l then l else "".

(** What is left of a line after one replacement of step 2. *)
Definition strip_line (sign : ascii) (l : string) : string :=
  match strip_prefix (empty_marker sign) l with
  | Some (String c rest as r) => if is_lf c then rest else r
  | Some EmptyString => ""
  | None => l
  end.

(** What is left of a line after the three replacements. *)
Definition clean_line (l : string) : string :=
  strip_line "+" (strip_line "-" (keep_change l)).

(** The lines the comments of the source mean to keep: the additions and
    deletions other than [+{}] and [-{}]. *)
Definition kept_line (l : string) : bool :=
  change_line l
  && negb (String.eqb (line_content l) "+{}")
  && negb (String.eqb (line_content l) "-{}").

(** ** The plan changes accumulator (main.ts, lines 10-23) *)

Record ResourceChangeBody : Type := {
  Address : string;
  ChangeDif : string;
  Action : string
}.

Record PlanChanges : Type := {
  CreateResourcesCount : nat;
  UpdateResourcesCount : nat;
  DestroyResourcesCount : nat;
  ReplaceResourcesCount : nat;
  ImportResourcesCount : nat;
  ResouceChangeBody : list ResourceChangeBody
}.

(** The accumulator a plan starts with (lines 61-68). *)
Definition empty_changes : PlanChanges :=
  {| CreateResourcesCount := 0; UpdateResourcesCount := 0;
     DestroyResourcesCount := 0; ReplaceResourcesCount := 0;
     ImportResourcesCount := 0; ResouceChangeBody := [] |}.

(** [planChanges.XResourcesCount += dX] for the five counters. *)
Definition count (create update destroy replace import : nat)
    (planChanges : PlanChanges) : PlanChanges :=
  {| CreateResourcesCount := CreateResourcesCount planChanges + create;
     UpdateResourcesCount := UpdateResourcesCount planChanges + update;
     DestroyResourcesCount := DestroyResourcesCount planChanges + destroy;
     ReplaceResourcesCount := ReplaceResourcesCount planChanges + replace;
     ImportResourcesCount := ImportResourcesCount planChanges + import;
     ResouceChangeBody := ResouceChangeBody planChanges |}.

(** [planChanges.ResouceChangeBody.push(body)] *)
Definition push (body : ResourceChangeBody) (planChanges : PlanChanges)
  : PlanChanges :=
  {| CreateResourcesCount := CreateResourcesCount planChanges;
     UpdateResourcesCount := UpdateResourcesCount planChanges;
     DestroyResourcesCount := DestroyResourcesCount planChanges;
     ReplaceResourcesCount := ReplaceResourcesCount planChanges;
     ImportResourcesCount := ImportResourcesCount planChanges;
     ResouceChangeBody := ResouceChangeBody planChanges ++ [body] |}.

(** ** The action classifier (main.ts, lines 148-190)

    The [switch] on [resourceChangeActions[0]].  The result is the updated
    accumulator, [overallAction] and [noChanges]; a record whose [noChanges]
    is still [true] after the switch is skipped by [continue], like the
    no-op that is not an import.  The switch has no [default] case. *)
Definition resolve_action (resourceChangeActions : list string)
    (importing_in_details : bool) (planChanges : PlanChanges)
  : PlanChanges * string * bool :=
  match head resourceChangeActions with
  | None => (planChanges, "", true)
  | Some verb =>
      if String.eqb verb "no-op" then
        if importing_in_details
        then (count 0 0 0 0 1 planChanges, "Import", false)
        else (planChanges, "", true)
      else if String.eqb verb "create" then
        (count 1 0 0 0 0 planChanges, "Create", false)
      else if String.eqb verb "delete" then
        if bool_decide ("delete" ∈ resourceChangeActions)
           && bool_decide ("create" ∈ resourceChangeActions)
        then (count 1 0 1 1 0 planChanges, "Replace", false)
        else (count 0 0 1 0 0 planChanges, "Destroy", false)
      else if String.eqb verb "update" then
        (count 0 1 0 0 0 planChanges, "Update", false)
      else (planChanges, "", true)
  end.

(** ** The headers of the patch (main.ts, lines 196-217)

    The fourth and fifth argument of [diff.createPatch], [oldHeader] and
    [newHeader]; [None] is [undefined]. *)
Definition patch_headers (overallAction : string)
  : option string * option string :=
  if String.eqb overallAction "Create"
     || String.eqb overallAction "Update"
     || String.eqb overallAction "Import"
  then (None, Some overallAction)
  else (Some overallAction, None).

(** ** Failures *)

(** The exceptions the loop over the resource changes can raise. *)
Inductive js_error : Type :=
| NotIterable
| CannotReadProperty (property : string).

Inductive outcome (A : Type) : Type :=
| Threw (e : js_error)
| Returned (a : A).
Arguments Threw {A} e.
Arguments Returned {A} a.

(** Sequencing: an exception leaves the rest of the block unexecuted. *)
#[global] Instance outcome_bind : MBind outcome := λ A B k m,
  match m with
  | Threw e => Threw e
  | Returned a => k a
  end.

(** [for (const x of xs) acc = body(acc, x)], stopping at the first
    exception. *)
Fixpoint for_of {A S : Type} (body : S → A → outcome S) (xs : list A) (acc : S)
  : outcome S :=
  match xs with
  | [] => Returned acc
  | x :: rest => acc' ← body acc x; for_of body rest acc'
  end.

(** What [core.setFailed] is called with. *)
Inductive failure : Type :=
| InvalidPlan (tfPlan : string) (error : js_error)
| Message (text : string).

(** The calls of the run to the pull request module. *)
Inductive effect : Type :=
| RemoveCommentsByLookupText (lookupText : string)
| CreatePRComment (commentBody : string).

Definition MAX_GITHUB_COMMENT_BODY_SIZE : N := 65536.

(** The answers of GitHub to a run: whether [RemoveCommentsByLookupText]
    rejects, which it does when the query of the comments of the pull
    request rejects or its answer cannot be read, and whether the [n]-th
    [createComment] of the run does, with the message of the error.  The
    deletion of a comment rejects without consequence:
    [RemoveCommentsByLookupText] catches the error and warns. *)
Record GitHub : Type := {
  query_rejects : option string;
  create_rejects : nat → option string
}.

(** The names an object inherits from [Object.prototype]. *)
Definition object_prototype : list string :=
  [ "constructor"; "__defineGetter__"; "__defineSetter__"; "hasOwnProperty";
    "__lookupGetter__"; "__lookupSetter__"; "isPrototypeOf";
    "propertyIsEnumerable"; "toString"; "valueOf"; "__proto__";
    "toLocaleString" ].

Definition inherited (key : string) : bool :=
  bool_decide (key ∈ object_prototype).

(** An inherited name that an assignment turns into an own property: every
    one but [__proto__], whose setter ignores a string. *)
Definition creatable (key : string) : bool :=
  inherited key && negb (String.eqb key "__proto__").

(** The inputs of the action that the pipeline reads. *)
Record Inputs : Type := {
  expandComment : bool;
  headingPlanVariableName : string;
  commentHeader : string
}.

(** ** JSON values, the redactor and the pipeline *)

Section Pipeline.

(** The numbers [JSON.parse] produces, with the equality [===] decides on
    them. *)
Context {number : Type} `{!EqDecision number}.

#[warnings="-register-all"]
Inductive value : Type :=
| VNull
| VBool (b : bool)
| VNum (n : number)
| VStr (s : string)
| VArr (items : list value)
| VObj (fields : list (string * value)).

(** [x === y] for two reads [x = o1[key]], [y = o2[key]] of one name from
    two different objects of one parsed document; [None] is the read of a
    name the object has no own property for, which gives [undefined] or, for
    a name of [object_prototype], the inherited member: the same for both
    objects, and no value of the plan.  Primitive values are compared by
    value.  An array or an object is equal to itself only, and [JSON.parse]
    allocates a new one for every array and object of the text, so two reads
    at different places never yield the same one. *)
Definition strict_equals (x y : option value) : bool :=
  match x, y with
  | None, None => true
  | Some VNull, Some VNull => true
  | Some (VBool b), Some (VBool c) => bool_decide (b = c)
  | Some (VNum n), Some (VNum m) => bool_decide (n = m)
  | Some (VStr s), Some (VStr t) => bool_decide (s = t)
  | _, _ => false
  end.

(** A value that is not an array or an object. *)
Definition primitive (v : value) : bool :=
  match v with
  | VArr _ | VObj _ => false
  | _ => true
  end.

(** *** The sensitive-field redactor (main.ts, lines 111-146) *)

Definition OLD_SENSITIVE_VALUE : string := "(OLD_SENSITIVE_VALUE)".
Definition NEW_SENSITIVE_VALUE : string := "(NEW_SENSITIVE_VALUE)".

(** [key in obj]: an own property, or a member of the prototype. *)
Definition has_key (key : string) (obj : gmap string value) : bool :=
  bool_decide (is_Some (obj !! key)) || inherited key.

(** [obj[key] = v] for a string [v]: the own property is written or
    created, except under the inherited name [__proto__], where the setter
    of the prototype is called and does nothing with a string. *)
Definition set_property (key : string) (v : value) (obj : gmap string value)
  : gmap string value :=
  if bool_decide (is_Some (obj !! key)) then <[key := v]> obj
  else if String.eqb key "__proto__" then obj
  else <[key := v]> obj.

(** The body of either [for ... in] loop, for one [sensitiveParamKey]; the
    pair is [(beforeChanges, afterChanges)]. *)
Definition redact_key (sensitiveParamKey : string)
    (changes : gmap string value * gmap string value)
  : gmap string value * gmap string value :=
  let beforeChanges := changes.1 in
  let afterChanges := changes.2 in
  if strict_equals (beforeChanges !! sensitiveParamKey)
                   (afterChanges !! sensitiveParamKey)
  then (delete sensitiveParamKey beforeChanges,
        delete sensitiveParamKey afterChanges)
  else (if has_key sensitiveParamKey beforeChanges
        then set_property sensitiveParamKey (VStr OLD_SENSITIVE_VALUE)
               beforeChanges
        else beforeChanges,
        if has_key sensitiveParamKey afterChanges
        then set_property sensitiveParamKey (VStr NEW_SENSITIVE_VALUE)
               afterChanges
        else afterChanges).

(** One [for (const sensitiveParamKey in params)] loop that visits the keys
    in the order [keys]. *)
Definition redact_keys (keys : list string)
    (changes : gmap string value * gmap string value)
  : gmap string value * gmap string value :=
  foldl (λ acc key, redact_key key acc) changes keys.

(** The keys a [for ... in] loop visits: the own properties, since those
    of the prototype are not enumerable.  The order of the visit has no
    influence on the result of the redactor. *)
Definition for_in (obj : gmap string value) : list string :=
  (map_to_list obj).*1.

(** [x ? x : {}] for a property that holds an object, [null] or nothing. *)
Definition or_empty (x : option (gmap string value)) : gmap string value :=
  default ∅ x.

(** *** Resource change records *)

(** The object under [resourceChange['change']]. *)
Record Change : Type := {
  actions : option (list string);
  before : option (gmap string value);
  after : option (gmap string value);
  before_sensitive : option (gmap string value);
  after_sensitive : option (gmap string value);
  importing : option value
}.

Record ResourceChange : Type := {
  address : string;
  change : option Change
}.

(** The parsed content of a plan file, with the path of the file.  A
    variable is represented by its ['value']. *)
Record Plan : Type := {
  tfPlan : string;
  variables : option (gmap string string);
  resource_changes : option (list ResourceChange)
}.

(** Both loops, in the order of the source. *)
Definition redact (resourceChangeDetails : Change)
  : gmap string value * gmap string value :=
  redact_keys (for_in (or_empty (after_sensitive resourceChangeDetails)))
    (redact_keys (for_in (or_empty (before_sensitive resourceChangeDetails)))
       (or_empty (before resourceChangeDetails),
        or_empty (after resourceChangeDetails))).

(** What the redactor leaves at a key it visits, given the two values [x]
    (this side) and [y] (the other side) it finds there. *)
Definition masked (key placeholder : string) (x y : option value)
  : option value :=
  if strict_equals x y then None
  else if bool_decide (is_Some x) || creatable key
       then Some (VStr placeholder)
       else None.

(** A key marked in [before_sensitive] or in [after_sensitive]. *)
Definition marked (key : string) (resourceChangeDetails : Change) : Prop :=
  is_Some (or_empty (before_sensitive resourceChangeDetails) !! key) ∨
  is_Some (or_empty (after_sensitive resourceChangeDetails) !! key).

(** *** The libraries *)

Class Externals : Type := {
  (** [yaml.stringify] *)
  yaml_stringify : gmap string value → string;
  (** [diff.createPatch(fileName, oldStr, newStr, oldHeader, newHeader)] *)
  createPatch : string → string → string → option string → option string → string;
  COMMENT_FOOTER : string
}.

Context {libs : Externals}.

(** *** The diff of one resource (main.ts, lines 192-232) *)
Definition render_change (resourceAddress : string)
    (beforeChanges afterChanges : gmap string value) (overallAction : string)
  : string :=
  let beforeYaml := yaml_stringify beforeChanges in
  let afterYaml := yaml_stringify afterChanges in
  let changeDiff :=
    createPatch resourceAddress beforeYaml afterYaml
      (patch_headers overallAction).1 (patch_headers overallAction).2 in
  add_heading resourceAddress (sanitize_diff changeDiff).

(** Reading a property of [x]: a [TypeError] when [x] is [undefined]. *)
Definition read_of {A : Type} (property : string) (x : option A) : outcome A :=
  match x with
  | Some a => Returned a
  | None => Threw (CannotReadProperty property)
  end.

(** *** The body of the loop over the resource changes (lines 90-239) *)
Definition process_record (planChanges : PlanChanges)
    (resourceChange : ResourceChange) : outcome PlanChanges :=
  let resourceAddress := address resourceChange in
  resourceChangeDetails ← read_of "actions" (change resourceChange);
  let changes := redact resourceChangeDetails in
  resourceChangeActions ← read_of "0" (actions resourceChangeDetails);
  let '(planChanges', overallAction, noChanges) :=
    resolve_action resourceChangeActions
      (bool_decide (is_Some (importing resourceChangeDetails))) planChanges in
  if noChanges then Returned planChanges'
  else
    Returned
      (push {| Address := resourceAddress;
               ChangeDif :=
                 render_change resourceAddress changes.1 changes.2 overallAction;
               Action := overallAction |}
         planChanges').

(** The loop, from a given accumulator. *)
Definition process_records (planChanges : PlanChanges)
    (resourceChanges : list ResourceChange) : outcome PlanChanges :=
  for_of process_record resourceChanges planChanges.

(** The [try] block of a plan (lines 87-239). *)
Definition process_changes (plan : Plan) : outcome PlanChanges :=
  match resource_changes plan with
  | None => Threw NotIterable
  | Some resourceChanges => process_records empty_changes resourceChanges
  end.

(** *** The comment body (main.ts, lines 250-326) *)

(** The content of one category: its title, then the diffs of the changes
    with that [Action], in order. *)
Definition section_content (title action : string)
    (bodies : list ResourceChangeBody) : string :=
  foldl (λ content resourceChangeBody,
           if String.eqb (Action resourceChangeBody) action
           then content +:+ nl +:+ "```diff" +:+ ChangeDif resourceChangeBody
                        +:+ "```" +:+ nl +:+ nl
           else content)
        (nl +:+ "#### Resources to " +:+ title +:+ ":" +:+ nl +:+ nl)
        bodies.

Definition resourcesToCreateContent := section_content "create" "Create".
Definition resourcesToDestroyContent := section_content "destroy" "Destroy".
Definition resourcesToUpdateContent := section_content "update" "Update".
Definition resourcesToReplaceContent := section_content "replace" "Replace".
Definition resourcesToImportContent := section_content "import" "Import".

(** The five interpolations of lines 318-322, in order: the content of a
    category, or the empty string. *)
Definition emitted_sections (planChanges : PlanChanges) : list string :=
  let bodies := ResouceChangeBody planChanges in
  [ if bool_decide (ReplaceResourcesCount planChanges
                    < CreateResourcesCount planChanges)
    then resourcesToCreateContent bodies else "";
    if bool_decide (ReplaceResourcesCount planChanges
                    < DestroyResourcesCount planChanges)
    then resourcesToDestroyContent bodies else "";
    if bool_decide (0 < UpdateResourcesCount planChanges)
    then resourcesToUpdateContent bodies else "";
    if bool_decide (0 < ReplaceResourcesCount planChanges)
    then resourcesToReplaceContent bodies else "";
    if bool_decide (0 < ImportResourcesCount planChanges)
    then resourcesToImportContent bodies else "" ].

Definition badge (name : string) (n : nat) (colour : string) : string :=
  "![" +:+ name +:+ "](https://img.shields.io/badge/" +:+ name +:+ "-"
       +:+ pretty n +:+ "-" +:+ colour +:+ ")".

Definition commentBody (expand : bool) (resolvedCommentHeader : string)
    (planChanges : PlanChanges) : string :=
  nl +:+ "<b>" +:+ resolvedCommentHeader +:+ "<b>" +:+ nl +:+ nl +:+
  badge "Create" (CreateResourcesCount planChanges) "brightgreen" +:+ " " +:+
  badge "Update" (UpdateResourcesCount planChanges) "yellow" +:+ " " +:+
  badge "Replace" (ReplaceResourcesCount planChanges) "orange" +:+ " " +:+
  badge "Destroy" (DestroyResourcesCount planChanges) "red" +:+ " " +:+
  badge "Import" (ImportResourcesCount planChanges) "blue" +:+ nl +:+
  "<details" +:+ (if expand then " open" else "") +:+ ">" +:+ nl +:+
  "<summary>" +:+ nl +:+
  "<b>Resource changes:</b>" +:+ nl +:+
  "</summary>" +:+ nl +:+ nl +:+
  foldr (λ content rest, content +:+ nl +:+ rest) "" (emitted_sections planChanges) +:+
  "</details>" +:+ nl +:+ nl +:+
  COMMENT_FOOTER +:+ nl.

(** The heading of a plan (lines 59-84).  Under a name that the variables
    inherit and do not own, the member of the prototype has no ['value'],
    and the template prints [undefined]. *)
Definition resolve_header (inputs : Inputs) (plan : Plan) : string :=
  if bool_decide (headingPlanVariableName inputs ≠ "") then
    match variables plan with
    | Some vars =>
        match vars !! headingPlanVariableName inputs with
        | Some heading => heading
        | None =>
            if inherited (headingPlanVariableName inputs) then "undefined"
            else commentHeader inputs
        end
    | None => commentHeader inputs
    end
  else commentHeader inputs.

Definition too_large (size : nat) : string :=
  "Comment body size is too large for GitHub comment: " +:+ pretty size
    +:+ " > " +:+ pretty MAX_GITHUB_COMMENT_BODY_SIZE.

(** *** One turn of the loop over the plans (lines 55-338) *)

Inductive plan_result : Type :=
| PlanFailed (f : failure)      (* [core.setFailed(..); return] *)
| PlanSkipped                   (* [continue] *)
| PlanComment (body : string).  (* [planComments.push(commentBody)] *)

Definition process_plan (inputs : Inputs) (plan : Plan) : plan_result :=
  let resolvedCommentHeader := resolve_header inputs plan in
  match process_changes plan with
  | Threw error => PlanFailed (InvalidPlan (tfPlan plan) error)
  | Returned planChanges =>
      if bool_decide (length (ResouceChangeBody planChanges) = 0)
      then PlanSkipped
      else
        let body :=
          commentBody (expandComment inputs) resolvedCommentHeader planChanges in
        if bool_decide (MAX_GITHUB_COMMENT_BODY_SIZE
                        < N.of_nat (String.length body))%N
        then PlanFailed (Message (too_large (String.length body)))
        else PlanComment body
  end.

(** The loop over the plans: the failure that ends the run, or the comment
    bodies collected. *)
Fixpoint collect_comments (inputs : Inputs) (tfPlanFiles : list Plan)
    (planComments : list string) : failure + list string :=
  match tfPlanFiles with
  | [] => inr planComments
  | plan :: rest =>
      match process_plan inputs plan with
      | PlanFailed f => inl f
      | PlanSkipped => collect_comments inputs rest planComments
      | PlanComment body =>
          collect_comments inputs rest (planComments ++ [body])
      end
  end.

(** The loop over the comments (lines 348-350), from the [n]-th
    [createComment] on: a call that rejects ends the run in the [catch] of
    line 351, with the message of the error. *)
Fixpoint post_comments (gh : GitHub) (n : nat) (planComments : list string)
  : option failure * list effect :=
  match planComments with
  | [] => (None, [])
  | planComment :: rest =>
      match create_rejects gh n with
      | Some message => (Some (Message message), [CreatePRComment planComment])
      | None =>
          let '(f, effects) := post_comments gh (S n) rest in
          (f, CreatePRComment planComment :: effects)
      end
  end.

(** *** The run (main.ts, lines 29-354)

    The failure reported, if any, and the calls made to the pull request
    module, in order. *)
Definition run (gh : GitHub) (inputs : Inputs) (tfPlanFiles : list Plan)
  : option failure * list effect :=
  match collect_comments inputs tfPlanFiles [] with
  | inl f => (Some f, [])
  | inr [] => (None, [])
  | inr planComments =>
      match query_rejects gh with
      | Some message =>
          (Some (Message message), [RemoveCommentsByLookupText COMMENT_FOOTER])
      | None =>
          let '(f, effects) := post_comments gh 0 planComments in
          (f, RemoveCommentsByLookupText COMMENT_FOOTER :: effects)
      end
  end.

End Pipeline.

Arguments value : clear implicits.
Arguments Change : clear implicits.
Arguments ResourceChange : clear implicits.
Arguments Plan : clear implicits.
Arguments Externals : clear implicits.

(** ** Sample data

    A stand-in for the two libraries, to run the pipeline on examples: a
    flat YAML printer, and a patch with the header lines of [createPatch]
    that lists every old line as removed and every new line as added. *)

Definition tab : string := String "009"%char "".

Definition sample_scalar (v : value Z) : string :=
  match v with
  | VNull => "null"
  | VBool b => if b then "true" else "false"
  | VNum n => pretty n
  | VStr s => s
  | VArr _ => "[]"
  | VObj _ => "{}"
  end.

Definition sample_yaml (obj : gmap string (value Z)) : string :=
  match map_to_list obj with
  | [] => "{}" +:+ nl
  | fields =>
      unlines ((λ kv, kv.1 +:+ ": " +:+ sample_scalar kv.2 +:+ nl) <$> fields)
  end.

Definition sample_header (h : option string) : string :=
  match h with
  | Some text => tab +:+ text
  | None => ""
  end.

Definition sample_patch (fileName oldStr newStr : string)
    (oldHeader newHeader : option string) : string :=
  "Index: " +:+ fileName +:+ nl +:+
  separator +:+ nl +:+
  "--- " +:+ fileName +:+ sample_header oldHeader +:+ nl +:+
  "+++ " +:+ fileName +:+ sample_header newHeader +:+ nl +:+
  "@@ -1 +1 @@" +:+ nl +:+
  unlines (String.append "-" <$> lines oldStr) +:+
  unlines (String.append "+" <$> lines newStr).

#[export] Instance sample_libs : Externals Z := {|
  yaml_stringify := sample_yaml;
  createPatch := sample_patch;
  COMMENT_FOOTER := "<!-- terraform plan summary -->"
|}.

Definition sample_inputs : Inputs :=
  {| expandComment := false; headingPlanVariableName := "";
     commentHeader := "Terraform plan" |}.

Definition sample_record (addr : string) (acts : list string)
    (b a bs as_ : gmap string (value Z)) (imp : option (value Z))
  : ResourceChange Z :=
  {| address := addr;
     change := Some {| actions := Some acts; before := Some b; after := Some a;
                       before_sensitive := Some bs; after_sensitive := Some as_;
                       importing := imp |} |}.

Definition sample_plan (records : list (ResourceChange Z)) : Plan Z :=
  {| tfPlan := "tfplan.json"; variables := None;
     resource_changes := Some records |}.

(** An update that leaves the tags, a map, as they are: Terraform lists
    every attribute that holds a collection in [after_sensitive]. *)
Definition tags_unchanged : Change Z :=
  {| actions := Some ["update"];
     before := Some {[ "ami" := VStr "ami-1";
                       "tags" := VObj [("Name", VStr "web")] ]};
     after := Some {[ "ami" := VStr "ami-2";
                      "tags" := VObj [("Name", VStr "web")] ]};
     before_sensitive := Some {[ "tags" := VObj [] ]};
     after_sensitive := Some {[ "tags" := VObj [] ]};
     importing := None |}.

(** A password that changes, and a token that does not. *)
Definition password_rotated : Change Z :=
  {| actions := Some ["update"];
     before := Some {[ "password" := VStr "hunter2"; "token" := VStr "t0k" ]};
     after := Some {[ "password" := VStr "hunter3"; "token" := VStr "t0k" ]};
     before_sensitive := Some {[ "password" := VBool true;
                                 "token" := VBool true ]};
     after_sensitive := Some {[ "password" := VBool true;
                                "token" := VBool true ]};
     importing := None |}.

(** A replacement that creates the new resource before it deletes the old
    one: Terraform writes its actions as [["create", "delete"]]. *)
Definition create_before_destroy : ResourceChange Z :=
  sample_record "aws_instance.web" ["create"; "delete"]
    {[ "ami" := VStr "ami-1" ]} {[ "ami" := VStr "ami-2" ]} ∅ ∅ None.

Definition destroy_then_create : ResourceChange Z :=
  sample_record "aws_instance.web" ["delete"; "create"]
    {[ "ami" := VStr "ami-1" ]} {[ "ami" := VStr "ami-2" ]} ∅ ∅ None.

(** A data source that is read during the apply. *)
Definition data_read : ResourceChange Z :=
  sample_record "data.aws_ami.ubuntu" ["read"] ∅ {[ "id" := VStr "ami-1" ]}
    ∅ ∅ None.

Definition unchanged : ResourceChange Z :=
  sample_record "aws_vpc.main" ["no-op"]
    {[ "cidr" := VStr "10.0.0.0/16" ]} {[ "cidr" := VStr "10.0.0.0/16" ]}
    ∅ ∅ None.

Definition imported : ResourceChange Z :=
  sample_record "aws_vpc.main" ["no-op"]
    {[ "cidr" := VStr "10.0.0.0/16" ]} {[ "cidr" := VStr "10.0.0.0/16" ]}
    ∅ ∅ (Some (VObj [("id", VStr "vpc-1")])).

Definition acl_update : ResourceChange Z :=
  sample_record "aws_s3_bucket.x" ["update"]
    {[ "acl" := VStr "private" ]} {[ "acl" := VStr "public" ]} ∅ ∅ None.

(** An attribute named like a member of [Object.prototype], marked as
    sensitive, that the resource has after the change only. *)
Definition constructor_added : Change Z :=
  {| actions := Some ["update"];
     before := Some {[ "name" := VStr "web" ]};
     after := Some {[ "name" := VStr "web"; "constructor" := VStr "s3cret" ]};
     before_sensitive := Some ∅;
     after_sensitive := Some {[ "constructor" := VBool true ]};
     importing := None |}.

(** A GitHub that answers every call, and one whose second [createComment]
    rejects. *)
Definition steady : GitHub :=
  {| query_rejects := None; create_rejects := λ _, None |}.

Definition second_create_fails : GitHub :=
  {| query_rejects := None;
     create_rejects := λ n, if decide (n = 1) then Some "Not Found" else None |}.

Definition query_fails : GitHub :=
  {| query_rejects := Some "Bad credentials"; create_rejects := λ _, None |}.

(** The patch of an update of one attribute, with a context line and the
    marker of an empty mapping. *)
Definition acl_patch : string :=
  "Index: aws_s3_bucket.x" +:+ nl +:+
  separator +:+ nl +:+
  "--- aws_s3_bucket.x" +:+ nl +:+
  "+++ aws_s3_bucket.x" +:+ tab +:+ "Update" +:+ nl +:+
  "@@ -1,3 +1,3 @@" +:+ nl +:+
  "-acl: private" +:+ nl +:+
  "+acl: public" +:+ nl +:+
  " bucket: x" +:+ nl +:+
  "-{}" +:+ nl.

(** A text of [2 ^ n] characters. *)
Fixpoint filler (n : nat) : string :=
  match n with
  | 0 => "x"
  | S n => filler n +:+ filler n
  end.

Definition long_inputs : Inputs :=
  {| expandComment := true; headingPlanVariableName := "";
     commentHeader := filler 17 |}.

(** ** Looking for the plan files (utils.ts, [findTFPlans])

    The file system below the lookup directory is a tree: what
    [fs.readdirSync] lists for a directory, with what [fs.statSync] says of
    every entry.  [path.join] is a parameter. *)

#[warnings="-register-all"]
Inductive fs_entry : Type :=
| RegularFile
| Directory (entries : list (string * fs_entry)).

(** An element of [dirsToCheck], with the listing of the directory. *)
Record queued : Type := {
  dir : string;
  depth : nat;
  listing : list (string * fs_entry)
}.

(** The number of directories in an entry and in a listing, at any depth. *)
Fixpoint entry_dirs (e : fs_entry) : nat :=
  match e with
  | RegularFile => 0
  | Directory entries =>
      S ((fix listing_dirs (l : list (string * fs_entry)) : nat :=
            match l with
            | [] => 0
            | entry_stat :: rest => entry_dirs entry_stat.2 + listing_dirs rest
            end) entries)
  end.

Definition dir_count (entries : list (string * fs_entry)) : nat :=
  sum_list_with (λ entry_stat, entry_dirs entry_stat.2) entries.

Section FindPlans.
Variable path_join : string → string → string.

(** The [for (const entry of entries)] loop of one directory: the state is
    [(dirsToCheck, foundPaths)]. *)
Definition scan_entries (planName currentDir : string) (currentDepth : nat)
    (entries : list (string * fs_entry))
    (state : list queued * list string) : list queued * list string :=
  foldl (λ st entry_stat,
           let fullPath := path_join currentDir entry_stat.1 in
           match entry_stat.2 with
           | Directory sub =>
               (st.1 ++ [{| dir := fullPath; depth := currentDepth + 1;
                            listing := sub |}], st.2)
           | RegularFile =>
               if String.eqb entry_stat.1 planName
               then (st.1, st.2 ++ [fullPath])
               else st
           end)
        state entries.

(** The [while (dirsToCheck.length > 0)] loop, for at most [fuel] turns. *)
Fixpoint search (fuel : nat) (planName : string) (maxDepth : nat)
    (dirsToCheck : list queued) (foundPaths : list string)
  : option (list string) :=
  match dirsToCheck with
  | [] => Some foundPaths
  | current :: rest =>
      match fuel with
      | 0 => None
      | S fuel' =>
          if bool_decide (maxDepth < depth current)
          then search fuel' planName maxDepth rest foundPaths
          else
            let state :=
              scan_entries planName (dir current) (depth current)
                (listing current) (rest, foundPaths) in
            search fuel' planName maxDepth state.1 state.2
      end
  end.

(** [findTFPlans(lookupDir, planName, maxDepth)] on a lookup directory with
    the listing [root]; the loop gets one turn for every directory. *)
Definition findTFPlans (lookupDir planName : string) (maxDepth : nat)
    (root : list (string * fs_entry)) : option (list string) :=
  search (S (dir_count root)) planName maxDepth
    [{| dir := lookupDir; depth := 0; listing := root |}] [].

(** The plan files directly in a directory, and its subdirectories. *)
Definition plans_in (planName : string) (d : queued) : list string :=
  omap (λ entry_stat,
          match entry_stat.2 with
          | RegularFile =>
              if String.eqb entry_stat.1 planName
              then Some (path_join (dir d) entry_stat.1) else None
          | Directory _ => None
          end) (listing d).

Definition subdirs (d : queued) : list queued :=
  omap (λ entry_stat,
          match entry_stat.2 with
          | Directory sub =>
              Some {| dir := path_join (dir d) entry_stat.1;
                      depth := depth d + 1; listing := sub |}
          | RegularFile => None
          end) (listing d).

(** The plan files of [levels] levels of directories, level by level. *)
Fixpoint plans_within (levels : nat) (planName : string) (dirs : list queued)
  : list string :=
  match levels with
  | 0 => []
  | S levels' =>
      (dirs ≫= plans_in planName)
        ++ plans_within levels' planName (dirs ≫= subdirs)
  end.

(** The path of the entry reached from [start] through the names [names]. *)
Definition join_all (start : string) (names : list string) : string :=
  foldl path_join start names.

End FindPlans.

(** The directories of a queue, with those below them. *)
Definition queue_dirs (q : list queued) : nat :=
  sum_list_with (λ d, S (dir_count (listing d))) q.

(** The directories of a queue that are not beyond the depth limit. *)
Definition within_limit (maxDepth : nat) (q : list queued) : list queued :=
  filter (λ d, depth d ≤ maxDepth) q.

(** [descend names entries sub]: the names lead from a directory with the
    listing [entries], through directories, to one with the listing [sub]. *)
Inductive descend : list string → list (string * fs_entry)
                    → list (string * fs_entry) → Prop :=
| descend_here entries : descend [] entries entries
| descend_into name names entries sub sub' :
    (name, Directory sub) ∈ entries →
    descend names sub sub' →
    descend (name :: names) entries sub'.

(** ** The comments of the pull request (pull-request.ts) *)

(** [s.includes(t)] *)
Fixpoint includes (s t : string) : bool :=
  match strip_prefix t s with
  | Some _ => true
  | None =>
      match s with
      | EmptyString => false
      | String _ rest => includes rest t
      end
  end.

Module PullRequest.

Record IssueComment : Type := {
  id : string;
  body : string;
  isMinimized : bool
}.

(** [QueryCommentsByLookupText], on the comments the query returns. *)
Definition QueryCommentsByLookupText (nodes : list IssueComment)
    (lookupText : string) : list IssueComment :=
  let filteredComments :=
    filter (λ comment, includes (body comment) lookupText = true) nodes in
  if bool_decide (length filteredComments = 0) then []
  else filteredComments.

(** [RemoveCommentsByLookupText]: the ids of the comments it asks GitHub to
    delete, in the order of the requests. *)
Definition RemoveCommentsByLookupText (nodes : list IssueComment)
    (lookupText : string) : list string :=
  id <$> QueryCommentsByLookupText nodes lookupText.

End PullRequest.

(** ** The pieces of the comment body *)

(** A piece of the comment body that is the content of a category exactly
    when [condition] holds, and is empty otherwise. *)
Definition emitted_iff (piece content : string) (condition : Prop) : Prop :=
  (piece = content ↔ condition) ∧ (piece = "" ↔ ¬ condition).

(** ** What a record adds *)

(** [planChanges'] is [planChanges] with the five counters grown by the
    given amounts and the change [body] added at the end. *)
Definition recorded (planChanges planChanges' : PlanChanges)
    (body : ResourceChangeBody) (create update destroy replace import : nat)
  : Prop :=
  CreateResourcesCount planChanges'
  = CreateResourcesCount planChanges + create
  ∧ UpdateResourcesCount planChanges'
    = UpdateResourcesCount planChanges + update
  ∧ DestroyResourcesCount planChanges'
    = DestroyResourcesCount planChanges + destroy
  ∧ ReplaceResourcesCount planChanges'
    = ReplaceResourcesCount planChanges + replace
  ∧ ImportResourcesCount planChanges'
    = ImportResourcesCount planChanges + import
  ∧ ResouceChangeBody planChanges'
    = ResouceChangeBody planChanges ++ [body].

(** ** Counting the changes of a category *)

Definition with_action (action : string) (bodies : list ResourceChangeBody)
  : list ResourceChangeBody :=
  filter (λ resourceChangeBody, Action resourceChangeBody = action) bodies.

(** The fenced block a change adds to the content of its category. *)
Definition diff_block (resourceChangeBody : ResourceChangeBody) : string :=
  nl +:+ "```diff" +:+ ChangeDif resourceChangeBody +:+ "```" +:+ nl +:+ nl.

(** The comment bodies a run posts. *)
Definition posted (effects : list effect) : list string :=
  omap (λ e, match e with
             | CreatePRComment commentBody => Some commentBody
             | RemoveCommentsByLookupText _ => None
             end) effects.

(** The comment body a plan contributes, if it contributes one. *)
Definition plan_comment {number : Type} `{!EqDecision number}
    {libs : Externals number} (inputs : Inputs) (plan : Plan number)
  : option string :=
  match process_plan inputs plan with
  | PlanComment commentBody => Some commentBody
  | _ => None
  end.

(** The five categories with the counters each increments: create, update,
    destroy, replace, import. *)
Definition categories : list (string * (nat * nat * nat * nat * nat)) :=
  [ ("Import", (0, 0, 0, 0, 1));
    ("Create", (1, 0, 0, 0, 0));
    ("Replace", (1, 0, 1, 1, 0));
    ("Destroy", (0, 0, 1, 0, 0));
    ("Update", (0, 1, 0, 0, 0)) ].

(** ** More sample data *)

Definition sample_join (a b : string) : string := a +:+ "/" +:+ b.

Definition sample_tree : list (string * fs_entry) :=
  [ ("tfplan.json", RegularFile);
    ("README.md", RegularFile);
    ("envs",
     Directory
       [ ("dev",
          Directory
            [ ("tfplan.json", RegularFile);
              ("modules",
               Directory
                 [ ("vpc", Directory [ ("tfplan.json", RegularFile) ]) ]) ]);
         ("tfplan.json", Directory [ ("notes.txt", RegularFile) ]) ]) ].

Definition sample_comments : list PullRequest.IssueComment :=
  [ {| PullRequest.id := "IC_1"; PullRequest.body := "LGTM";
       PullRequest.isMinimized := false |};
    {| PullRequest.id := "IC_2";
       PullRequest.body := "old plan" +:+ nl +:+ COMMENT_FOOTER +:+ nl;
       PullRequest.isMinimized := false |};
    {| PullRequest.id := "IC_3"; PullRequest.body := "please rebase";
       PullRequest.isMinimized := true |} ].

(** A plan whose second record has no [change]. *)
Definition broken_plan : Plan Z :=
  sample_plan [acl_update; {| address := "aws_vpc.main"; change := None |}].

Definition sample_records : list (ResourceChange Z) :=
  [acl_update; destroy_then_create; unchanged; imported].

(** The accumulator after [sample_records]. *)
Definition sample_changes : PlanChanges :=
  match process_records empty_changes sample_records with
  | Returned planChanges => planChanges
  | Threw _ => empty_changes
  end.

(** The comment body of the plan with the one record [acl_update]. *)
Definition sample_body : string :=
  default "" (plan_comment sample_inputs (sample_plan [acl_update])).

(** * Part II: properties *)

(** ** Text *)

#[local] Arguments String.append !_ _ / : simpl nomatch.
#[local] Arguments empty_marker : simpl never.

Lemma append_assoc (a b c : string) : (a +:+ b) +:+ c = a +:+ (b +:+ c).
Proof. induction a as [|x a IH]; simpl; congruence. Qed.

Lemma append_empty_r (a : string) : a +:+ "" = a.
Proof. induction a as [|x a IH]; simpl; congruence. Qed.

Lemma is_sign_not_lf c : is_sign c = true → is_lf c = false.
Proof.
  unfold is_sign, is_lf. intros H.
  destruct (Ascii.eqb_spec c LF) as [->|]; [discriminate H|done].
Qed.

Lemma unlines_lines s : unlines (lines s) = s.
Proof.
  induction s as [|c s IH]; simpl; [done|].
  destruct (is_lf c) eqn:Hc.
  - apply Ascii.eqb_eq in Hc as ->. simpl. by rewrite IH.
  - destruct (lines s) as [|l ls]; simpl in *; by rewrite <- IH.
Qed.

Lemma lines_shape s :
  no_cr s →
  lines s = [] ∨
  (∃ b ls, single_line b ∧ lines s = (b +:+ nl) :: ls ∧ line_list ls) ∨
  (∃ b, single_line b ∧ lines s = [b]).
Proof.
  induction s as [|c s IH]; simpl; [by left|]. intros [Hr Hs].
  specialize (IH Hs). destruct (is_lf c) eqn:Hc.
  - right; left. exists "", (lines s). split_and!; [done|done|].
    destruct IH as [->|[(b & ls & Hb & -> & Hls)|(b & Hb & ->)]];
      eauto using line_list.
  - destruct IH as [->|[(b & ls & Hb & -> & Hls)|(b & Hb & ->)]].
    + right; right. by exists (String c "").
    + right; left. by exists (String c b), ls.
    + right; right. by exists (String c b).
Qed.

Lemma lines_line_list s : no_cr s → line_list (lines s).
Proof.
  intros Hs.
  destruct (lines_shape s Hs) as [->|[(b & ls & Hb & -> & Hls)|(b & Hb & ->)]];
    eauto using line_list.
Qed.

(** *** Step 1, line by line *)

Lemma keeping_line b rest :
  single_line b →
  drop_unchanged Keeping (b +:+ String LF rest)
  = b +:+ String LF (drop_unchanged LineStart rest).
Proof.
  induction b as [|c b IH]; simpl; [done|].
  intros (-> & -> & Hb). simpl. by rewrite IH.
Qed.

Lemma keeping_last b : single_line b → drop_unchanged Keeping b = b.
Proof.
  induction b as [|c b IH]; simpl; [done|].
  intros (-> & -> & Hb). simpl. by rewrite IH.
Qed.

Lemma dropping_line b rest :
  single_line b →
  drop_unchanged Dropping (b +:+ String LF rest)
  = drop_unchanged LineStart rest.
Proof.
  induction b as [|c b IH]; simpl; [done|].
  intros (-> & -> & Hb). simpl. by rewrite IH.
Qed.

Lemma dropping_last b : single_line b → drop_unchanged Dropping b = "".
Proof.
  induction b as [|c b IH]; simpl; [done|].
  intros (-> & -> & Hb). simpl. by rewrite IH.
Qed.

Lemma drop_unchanged_lines ls :
  line_list ls →
  drop_unchanged LineStart (unlines ls) = unlines (keep_change <$> ls).
Proof.
  induction 1 as [|ls _ IH|b ls Hb _ IH|b Hb]; simpl; [done|done| |].
  - rewrite !append_assoc. simpl. destruct b as [|c b]; simpl in *.
    + by rewrite IH.
    + destruct Hb as (Hc & Hr & Hb). unfold keep_change; simpl.
      destruct (is_sign c); simpl.
      * by rewrite keeping_line, IH, append_assoc.
      * by rewrite Hc, Hr, dropping_line, IH.
  - rewrite append_empty_r. destruct b as [|c b]; simpl in *; [done|].
    destruct Hb as (Hc & Hr & Hb). unfold keep_change; simpl.
    destruct (is_sign c); simpl.
    + by rewrite keeping_last, append_empty_r.
    + by rewrite Hc, Hr, dropping_last.
Qed.

Lemma keep_change_line_list ls :
  line_list ls → line_list (keep_change <$> ls).
Proof.
  induction 1 as [|ls _ IH|b ls Hb _ IH|b Hb]; simpl.
  - constructor.
  - by constructor.
  - unfold keep_change at 1. destruct (change_line _); by constructor.
  - unfold keep_change. destruct (change_line _); constructor; done.
Qed.

(** *** Step 2, line by line *)

Lemma strip_prefix_Some p s r : strip_prefix p s = Some r → s = p +:+ r.
Proof.
  revert s. induction p as [|a p IH]; intros [|b s]; simpl; try congruence.
  destruct (Ascii.eqb_spec a b) as [->|]; [|done].
  intros H. by rewrite (IH _ H).
Qed.

Lemma strip_prefix_app p r : strip_prefix p (p +:+ r) = Some r.
Proof.
  induction p as [|a p IH]; simpl; [done|]. by rewrite Ascii.eqb_refl.
Qed.

Lemma strip_prefix_single_line p b r :
  single_line b → strip_prefix p b = Some r → single_line r.
Proof.
  revert b. induction p as [|a p IH]; intros b Hb; simpl.
  - by intros [= <-].
  - destruct b as [|c b]; [done|]. destruct Hb as (_ & _ & Hb).
    destruct (Ascii.eqb a c); [eauto|done].
Qed.

Lemma strip_prefix_line p b t :
  single_line p →
  strip_prefix p (b +:+ String LF t)
  = (λ r, r +:+ String LF t) <$> strip_prefix p b.
Proof.
  revert b. induction p as [|a p IH]; intros b; [done|].
  intros (Ha & _ & Hp). destruct b as [|c b]; simpl.
  - unfold is_lf in Ha. by rewrite Ha.
  - destruct (Ascii.eqb a c); [by apply IH|done].
Qed.

Lemma single_line_marker sign :
  is_lf sign = false → is_cr sign = false → single_line (empty_marker sign).
Proof. intros Hl Hr. by repeat split. Qed.

Lemma inside_line sign b rest :
  single_line b →
  strip_empty sign Inside (b +:+ String LF rest)
  = b +:+ String LF (strip_empty sign AtStart rest).
Proof.
  induction b as [|c b IH]; simpl; [done|].
  intros (-> & -> & Hb). simpl. by rewrite IH.
Qed.

Lemma inside_last sign b : single_line b → strip_empty sign Inside b = b.
Proof.
  induction b as [|c b IH]; simpl; [done|].
  intros (-> & -> & Hb). simpl. by rewrite IH.
Qed.

(** The scanner at the start of a text that begins with the marker. *)
Lemma strip_empty_marker sign r :
  strip_empty sign AtStart (empty_marker sign +:+ r)
  = strip_empty sign (Matched 0) r.
Proof.
  change (empty_marker sign +:+ r)
    with (String sign (String "{" (String "}" r))) at 1.
  cbn [strip_empty].
  change (String sign (String "{" (String "}" r)))
    with (empty_marker sign +:+ r).
  by rewrite strip_prefix_app.
Qed.

(** The scanner at the start of a text that does not begin with it. *)
Lemma strip_empty_other sign c s :
  strip_prefix (empty_marker sign) (String c s) = None →
  strip_empty sign AtStart (String c s)
  = String c (strip_empty sign
                (if is_lf c || is_cr c then AtStart else Inside) s).
Proof. intros H. cbn [strip_empty]. by rewrite H. Qed.

Lemma strip_line_line sign b :
  is_lf sign = false → is_cr sign = false → single_line b →
  strip_line sign (b +:+ nl)
  = match strip_prefix (empty_marker sign) b with
    | Some EmptyString => ""
    | Some r => r +:+ nl
    | None => b +:+ nl
    end.
Proof.
  intros Hs Hs' Hb. unfold strip_line, nl.
  rewrite strip_prefix_line by by apply single_line_marker.
  destruct (strip_prefix (empty_marker sign) b) as [r|] eqn:Hr; simpl; [|done].
  apply strip_prefix_single_line in Hr; [|done].
  destruct r as [|c r]; simpl in *; [done|]. by destruct Hr as [-> _].
Qed.

Lemma strip_line_last sign b :
  single_line b →
  strip_line sign b = default b (strip_prefix (empty_marker sign) b).
Proof.
  intros Hb. unfold strip_line.
  destruct (strip_prefix (empty_marker sign) b) as [r|] eqn:Hr; simpl; [|done].
  apply strip_prefix_single_line in Hr; [|done].
  destruct r as [|c r]; simpl in *; [done|]. by destruct Hr as [-> _].
Qed.

Lemma strip_empty_lines sign ls :
  is_lf sign = false → is_cr sign = false → line_list ls →
  strip_empty sign AtStart (unlines ls) = unlines (strip_line sign <$> ls).
Proof.
  intros Hs Hs'. induction 1 as [|ls _ IH|b ls Hb _ IH|b Hb]; simpl; [done|done| |].
  - rewrite strip_line_line by done.
    rewrite append_assoc.
    change (nl +:+ unlines ls) with (String LF (unlines ls)).
    pose proof (strip_prefix_line (empty_marker sign) b (unlines ls)
                  (single_line_marker _ Hs Hs')) as Hfull.
    destruct (strip_prefix (empty_marker sign) b) as [r|] eqn:Hr; simpl in Hfull.
    + pose proof (strip_prefix_single_line _ _ _ Hb Hr) as Hnr.
      apply strip_prefix_Some in Hr as ->.
      rewrite append_assoc, strip_empty_marker.
      destruct r as [|c r]; simpl; [by rewrite IH|].
      destruct Hnr as (-> & -> & Hnr). simpl.
      by rewrite inside_line, IH, append_assoc.
    + destruct b as [|c b].
      * change ("" +:+ String LF (unlines ls)) with (String LF (unlines ls)) in *.
        rewrite strip_empty_other by done. simpl. by rewrite IH.
      * destruct Hb as (Hc & Hr' & Hb).
        change (String c b +:+ String LF (unlines ls))
          with (String c (b +:+ String LF (unlines ls))) in *.
        rewrite strip_empty_other by done.
        rewrite Hc, Hr', inside_line, IH by done. simpl.
        by rewrite append_assoc.
  - rewrite append_empty_r, strip_line_last by done.
    destruct (strip_prefix (empty_marker sign) b) as [r|] eqn:Hr; simpl.
    + pose proof (strip_prefix_single_line _ _ _ Hb Hr) as Hnr.
      apply strip_prefix_Some in Hr as ->.
      rewrite strip_empty_marker, append_empty_r.
      destruct r as [|c r]; simpl; [done|].
      destruct Hnr as (-> & -> & Hnr). simpl. by rewrite inside_last.
    + rewrite append_empty_r. destruct b as [|c b]; [done|].
      destruct Hb as (Hc & Hr' & Hb). rewrite strip_empty_other by done.
      by rewrite Hc, Hr', inside_last.
Qed.

Lemma strip_line_line_list sign ls :
  is_lf sign = false → is_cr sign = false →
  line_list ls → line_list (strip_line sign <$> ls).
Proof.
  intros Hs Hs'. induction 1 as [|ls _ IH|b ls Hb _ IH|b Hb]; simpl.
  - constructor.
  - by constructor.
  - rewrite strip_line_line by done.
    destruct (strip_prefix (empty_marker sign) b) as [r|] eqn:Hr.
    + apply strip_prefix_single_line in Hr; [|done].
      destruct r; by constructor.
    + by constructor.
  - rewrite strip_line_last by done.
    destruct (strip_prefix (empty_marker sign) b) as [r|] eqn:Hr; simpl.
    + apply strip_prefix_single_line in Hr; [|done]. by constructor.
    + by constructor.
Qed.

(** The three replacements act on every line on its own. *)
Lemma sanitize_diff_lines changeDiff :
  no_cr changeDiff →
  sanitize_diff changeDiff = unlines (clean_line <$> lines changeDiff).
Proof.
  intros Hcr. unfold sanitize_diff.
  rewrite <- (unlines_lines changeDiff) at 1.
  pose proof (lines_line_list changeDiff Hcr) as Hl.
  rewrite drop_unchanged_lines by done.
  rewrite strip_empty_lines by auto using keep_change_line_list.
  rewrite strip_empty_lines
    by auto using keep_change_line_list, strip_line_line_list.
  by rewrite <- !list_fmap_compose.
Qed.

(** ** The redactor *)

Section Redactor.
Context {number : Type} `{!EqDecision number}.
Implicit Types (x y : option (value number)) (k key : string).
Implicit Types (changes : gmap string (value number) * gmap string (value number)).

Lemma strict_equals_sym x y : strict_equals x y = strict_equals y x.
Proof.
  destruct x as [[]|], y as [[]|]; simpl; try reflexivity;
    apply bool_decide_ext; split; congruence.
Qed.

(** [===] on values that are not arrays or objects is equality. *)
Lemma strict_equals_primitive x :
  (∀ v, x = Some v → primitive v = true) → strict_equals x x = true.
Proof.
  intros Hp. destruct x as [v|]; [|done].
  specialize (Hp v eq_refl). destruct v; simpl in *; try done;
    by apply bool_decide_eq_true.
Qed.

Lemma strict_equals_eq x y : strict_equals x y = true → x = y.
Proof.
  destruct x as [[]|], y as [[]|]; simpl; try done;
    intros ?%bool_decide_eq_true; congruence.
Qed.

(** What an assignment under a name the object has leaves at that name. *)
Lemma set_property_lookup key placeholder (obj : gmap string (value number)) :
  has_key key obj = true →
  set_property key (VStr placeholder) obj !! key
  = if bool_decide (is_Some (obj !! key)) || creatable key
    then Some (VStr placeholder) else None.
Proof.
  unfold has_key, set_property, creatable. intros Hk.
  case_bool_decide as Hown; simpl in *; [by rewrite lookup_insert_eq|].
  rewrite Hk. simpl. destruct (String.eqb key "__proto__"); simpl.
  - by apply eq_None_not_Some.
  - by rewrite lookup_insert_eq.
Qed.

Lemma set_property_lookup_ne key v (obj : gmap string (value number)) k :
  k ≠ key → set_property key v obj !! k = obj !! k.
Proof.
  intros Hk. unfold set_property.
  repeat case_match; try done; by apply lookup_insert_ne.
Qed.

(** A name the object does not have is not an inherited one. *)
Lemma has_key_false key (obj : gmap string (value number)) :
  has_key key obj = false → obj !! key = None ∧ creatable key = false.
Proof.
  unfold has_key, creatable. intros [Hown ->]%orb_false_elim. split; [|done].
  apply bool_decide_eq_false in Hown. by apply eq_None_not_Some.
Qed.

Lemma redact_key_lookup_1 key changes k :
  (redact_key key changes).1 !! k =
    if decide (k = key)
    then masked k OLD_SENSITIVE_VALUE (changes.1 !! k) (changes.2 !! k)
    else changes.1 !! k.
Proof.
  unfold redact_key, masked. destruct changes as [b a]; simpl.
  case_decide as Hk; [subst k|].
  - destruct (strict_equals (b !! key) (a !! key)); simpl.
    + apply lookup_delete_eq.
    + destruct (has_key key b) eqn:Hs.
      * by apply set_property_lookup.
      * apply has_key_false in Hs as [-> ->]. by rewrite bool_decide_false
          by by intros [? ?].
  - destruct (strict_equals (b !! key) (a !! key)); simpl.
    + by apply lookup_delete_ne.
    + destruct (has_key key b); [by apply set_property_lookup_ne|done].
Qed.

Lemma redact_key_lookup_2 key changes k :
  (redact_key key changes).2 !! k =
    if decide (k = key)
    then masked k NEW_SENSITIVE_VALUE (changes.2 !! k) (changes.1 !! k)
    else changes.2 !! k.
Proof.
  unfold redact_key, masked. destruct changes as [b a]; simpl.
  rewrite (strict_equals_sym (a !! k)).
  case_decide as Hk; [subst k|].
  - destruct (strict_equals (b !! key) (a !! key)); simpl.
    + apply lookup_delete_eq.
    + destruct (has_key key a) eqn:Hs.
      * by apply set_property_lookup.
      * apply has_key_false in Hs as [-> ->]. by rewrite bool_decide_false
          by by intros [? ?].
  - destruct (strict_equals (b !! key) (a !! key)); simpl.
    + by apply lookup_delete_ne.
    + destruct (has_key key a); [by apply set_property_lookup_ne|done].
Qed.

(** A second visit of a key changes nothing: the two placeholders differ,
    and a placeholder differs from a missing value. *)
Lemma masked_twice k x y :
  masked k OLD_SENSITIVE_VALUE (masked k OLD_SENSITIVE_VALUE x y)
                               (masked k NEW_SENSITIVE_VALUE y x)
  = masked k OLD_SENSITIVE_VALUE x y
  ∧ masked k NEW_SENSITIVE_VALUE (masked k NEW_SENSITIVE_VALUE y x)
                                 (masked k OLD_SENSITIVE_VALUE x y)
  = masked k NEW_SENSITIVE_VALUE y x.
Proof.
  unfold masked. rewrite (strict_equals_sym y x).
  destruct (strict_equals x y) eqn:E; [done|].
  destruct x as [v|], y as [w|], (creatable k); try done.
Qed.

Lemma redact_keys_lookup keys changes k :
  (redact_keys keys changes).1 !! k =
    (if decide (k ∈ keys)
     then masked k OLD_SENSITIVE_VALUE (changes.1 !! k) (changes.2 !! k)
     else changes.1 !! k)
  ∧ (redact_keys keys changes).2 !! k =
    (if decide (k ∈ keys)
     then masked k NEW_SENSITIVE_VALUE (changes.2 !! k) (changes.1 !! k)
     else changes.2 !! k).
Proof.
  revert changes. induction keys as [|key keys IH]; intros changes; [done|].
  change (redact_keys (key :: keys) changes)
    with (redact_keys keys (redact_key key changes)).
  destruct (IH (redact_key key changes)) as [-> ->].
  rewrite !redact_key_lookup_1, !redact_key_lookup_2.
  destruct (masked_twice k (changes.1 !! k) (changes.2 !! k)) as [H1 H2].
  repeat case_decide; subst; rewrite ?H1, ?H2; try done; exfalso;
    match goal with
    | H : ¬ (_ ∈ _ :: _) |- _ => apply H; rewrite elem_of_cons; tauto
    | H : _ ∈ _ :: _ |- _ => apply elem_of_cons in H; tauto
    end.
Qed.

Lemma elem_of_for_in (obj : gmap string (value number)) k :
  k ∈ for_in obj ↔ is_Some (obj !! k).
Proof.
  unfold for_in. rewrite list_elem_of_fmap. split.
  - intros ([k' v] & -> & Hin). apply elem_of_map_to_list in Hin. eauto.
  - intros [v Hv]. exists (k, v). split; [done|].
    by apply elem_of_map_to_list.
Qed.

(** The redactor at a marked key. *)
Lemma redact_marked (details : Change number) k :
  marked k details →
  (redact details).1 !! k
  = masked k OLD_SENSITIVE_VALUE (or_empty (before details) !! k)
                                 (or_empty (after details) !! k)
  ∧ (redact details).2 !! k
  = masked k NEW_SENSITIVE_VALUE (or_empty (after details) !! k)
                                 (or_empty (before details) !! k).
Proof.
  unfold marked, redact. rewrite <- !elem_of_for_in. intros Hk.
  set (c0 := (or_empty (before details), or_empty (after details))).
  set (k1 := for_in (or_empty (before_sensitive details))) in *.
  set (k2 := for_in (or_empty (after_sensitive details))) in *.
  destruct (redact_keys_lookup k2 (redact_keys k1 c0) k) as [-> ->].
  destruct (redact_keys_lookup k1 c0 k) as [-> ->].
  destruct (masked_twice k (c0.1 !! k) (c0.2 !! k)) as [H1 H2].
  destruct (decide (k ∈ k1)), (decide (k ∈ k2)); try done.
  tauto.
Qed.

(** The redactor at any other key. *)
Lemma redact_unmarked (details : Change number) k :
  ¬ marked k details →
  (redact details).1 !! k = or_empty (before details) !! k
  ∧ (redact details).2 !! k = or_empty (after details) !! k.
Proof.
  unfold marked, redact. rewrite <- !elem_of_for_in. intros Hk.
  set (c0 := (or_empty (before details), or_empty (after details))).
  set (k1 := for_in (or_empty (before_sensitive details))) in *.
  set (k2 := for_in (or_empty (after_sensitive details))) in *.
  destruct (redact_keys_lookup k2 (redact_keys k1 c0) k) as [-> ->].
  destruct (redact_keys_lookup k1 c0 k) as [-> ->].
  destruct (decide (k ∈ k1)), (decide (k ∈ k2)); first [done|tauto].
Qed.

(** No value of the plan is left at a marked key: what is there, if
    anything, is the placeholder of its side. *)
Lemma redact_no_raw_value (details : Change number) k v :
  marked k details →
  ((redact details).1 !! k = Some v → v = VStr OLD_SENSITIVE_VALUE)
  ∧ ((redact details).2 !! k = Some v → v = VStr NEW_SENSITIVE_VALUE).
Proof.
  intros Hk. destruct (redact_marked details k Hk) as [-> ->].
  unfold masked. split.
  - destruct (strict_equals _ _); [done|]. case_match; congruence.
  - destruct (strict_equals _ _); [done|]. case_match; congruence.
Qed.

(** A marked key whose two values are the same string, number, boolean or
    [null], or are both missing, is removed on both sides. *)
Lemma redact_unchanged_primitive (details : Change number) k :
  marked k details →
  or_empty (before details) !! k = or_empty (after details) !! k →
  (∀ v, or_empty (before details) !! k = Some v → primitive v = true) →
  (redact details).1 !! k = None ∧ (redact details).2 !! k = None.
Proof.
  intros Hk Heq Hp. destruct (redact_marked details k Hk) as [-> ->].
  unfold masked. rewrite <- Heq. by rewrite strict_equals_primitive.
Qed.

(** A marked key whose two values differ holds the placeholder on every
    side where it was present; on a side where it was absent it stays
    absent, unless it is a name of the prototype that an assignment
    creates. *)
Lemma redact_changed (details : Change number) k :
  marked k details →
  or_empty (before details) !! k ≠ or_empty (after details) !! k →
  (redact details).1 !! k
  = (if creatable k then Some (VStr OLD_SENSITIVE_VALUE)
     else (λ _, VStr OLD_SENSITIVE_VALUE) <$> or_empty (before details) !! k)
  ∧ (redact details).2 !! k
  = (if creatable k then Some (VStr NEW_SENSITIVE_VALUE)
     else (λ _, VStr NEW_SENSITIVE_VALUE) <$> or_empty (after details) !! k).
Proof.
  intros Hk Hne. destruct (redact_marked details k Hk) as [-> ->].
  unfold masked. rewrite (strict_equals_sym (or_empty (after details) !! k)).
  destruct (strict_equals _ _) eqn:E.
  - by apply strict_equals_eq in E.
  - destruct (or_empty (before details) !! k), (or_empty (after details) !! k),
      (creatable k); done.
Qed.

(** A key of the redacted maps that the plan did not have on that side is
    a marked name of the prototype that the other side has. *)
Lemma redact_new_key (details : Change number) k :
  (is_Some ((redact details).1 !! k) →
   is_Some (or_empty (before details) !! k)
   ∨ (marked k details ∧ creatable k = true
      ∧ is_Some (or_empty (after details) !! k)))
  ∧ (is_Some ((redact details).2 !! k) →
     is_Some (or_empty (after details) !! k)
     ∨ (marked k details ∧ creatable k = true
        ∧ is_Some (or_empty (before details) !! k))).
Proof.
  destruct (decide (marked k details)) as [Hk|Hk].
  - destruct (redact_marked details k Hk) as [-> ->]. unfold masked.
    rewrite (strict_equals_sym (or_empty (after details) !! k)).
    destruct (or_empty (before details) !! k) as [v|] eqn:Hb,
             (or_empty (after details) !! k) as [w|] eqn:Ha;
      destruct (strict_equals _ _) eqn:E, (creatable k) eqn:Hc;
      simpl in *; split; intros [? ?]; try done; eauto 6.
  - destruct (redact_unmarked details k Hk) as [-> ->]. eauto.
Qed.

End Redactor.

(** ** The classifier and the accumulator *)

Section Classifier.
Context {number : Type} `{!EqDecision number} `{!Externals number}.
Implicit Types (planChanges pc : PlanChanges) (rc : ResourceChange number).
Implicit Types (details : Change number) (acts : list string).

(** The record a resource change adds to the accumulator. *)
Lemma process_record_unfold pc rc details acts :
  change rc = Some details → actions details = Some acts →
  process_record pc rc =
    let '(pc', overallAction, noChanges) :=
      resolve_action acts (bool_decide (is_Some (importing details))) pc in
    if noChanges then Returned pc'
    else Returned
           (push {| Address := address rc;
                    ChangeDif := render_change (address rc) (redact details).1
                                   (redact details).2 overallAction;
                    Action := overallAction |} pc').
Proof. intros Hc Ha. unfold process_record. by rewrite Hc; simpl; rewrite Ha. Qed.

(** The six outcomes of the switch. *)
Lemma resolve_action_cases acts imp pc :
  resolve_action acts imp pc ∈
    [ (pc, "", true);
      (count 0 0 0 0 1 pc, "Import", false);
      (count 1 0 0 0 0 pc, "Create", false);
      (count 1 0 1 1 0 pc, "Replace", false);
      (count 0 0 1 0 0 pc, "Destroy", false);
      (count 0 1 0 0 0 pc, "Update", false) ].
Proof.
  unfold resolve_action. rewrite !elem_of_cons.
  destruct (head acts) as [verb|]; [|tauto].
  repeat match goal with
         | |- context [if ?b then _ else _] => destruct b
         end; tauto.
Qed.

(** A first verb that the switch has no case for. *)
Lemma resolve_action_unknown acts imp pc :
  (∀ verb, head acts = Some verb →
     verb ∉ ["no-op"; "create"; "delete"; "update"]) →
  resolve_action acts imp pc = (pc, "", true).
Proof.
  intros Hv. unfold resolve_action.
  destruct (head acts) as [verb|]; [|done].
  specialize (Hv verb eq_refl). rewrite !not_elem_of_cons in Hv.
  destruct Hv as (H1 & H2 & H3 & H4 & _).
  apply String.eqb_neq in H1, H2, H3, H4. by rewrite H1, H2, H3, H4.
Qed.

(** [delete] first and [create] later: the replacement the switch finds. *)
Lemma delete_then_create_is_replace pc rc details acts :
  change rc = Some details → actions details = Some acts →
  head acts = Some "delete" → "create" ∈ acts →
  ∃ body,
    process_record pc rc = Returned (push body (count 1 0 1 1 0 pc))
    ∧ Action body = "Replace".
Proof.
  intros Hc Ha Hh Hin. rewrite (process_record_unfold _ _ _ _ Hc Ha).
  unfold resolve_action. rewrite Hh. simpl.
  assert ("delete" ∈ acts) as Hd.
  { destruct acts; simplify_eq/=. by left. }
  rewrite !bool_decide_eq_true_2 by done. simpl. eauto.
Qed.

(** What one record does to the counters and to the list of changes. *)
Lemma process_record_step pc rc pc' :
  process_record pc rc = Returned pc' →
  pc' = pc ∨
  ∃ body create update destroy replace import,
    pc' = push body (count create update destroy replace import pc)
    ∧ create + update + destroy + import = S replace
    ∧ replace ≤ create ∧ replace ≤ destroy.
Proof.
  unfold process_record.
  destruct (change rc) as [details|]; [simpl|done].
  destruct (actions details) as [acts|]; [simpl|done].
  pose proof (resolve_action_cases acts
                (bool_decide (is_Some (importing details))) pc) as Hcases.
  rewrite !elem_of_cons, elem_of_nil in Hcases.
  destruct Hcases as [->|[->|[->|[->|[->|[->|[]]]]]]]; intros [= <-];
    [by left|right..]; eexists _, _, _, _, _, _; (split; [done|lia]).
Qed.

Lemma process_records_app pc rcs1 rcs2 :
  process_records pc (rcs1 ++ rcs2)
  = pc1 ← process_records pc rcs1; process_records pc1 rcs2.
Proof.
  revert pc. induction rcs1 as [|rc rcs1 IH]; intros pc; [done|].
  unfold process_records in *. simpl.
  destruct (process_record pc rc) as [e|pc1]; [done|]. apply IH.
Qed.

Lemma process_records_accounted pc rcs pc' :
  process_records pc rcs = Returned pc' →
  length (ResouceChangeBody pc) + ReplaceResourcesCount pc
  = CreateResourcesCount pc + UpdateResourcesCount pc
    + DestroyResourcesCount pc + ImportResourcesCount pc →
  ReplaceResourcesCount pc ≤ CreateResourcesCount pc →
  ReplaceResourcesCount pc ≤ DestroyResourcesCount pc →
  length (ResouceChangeBody pc') + ReplaceResourcesCount pc'
  = CreateResourcesCount pc' + UpdateResourcesCount pc'
    + DestroyResourcesCount pc' + ImportResourcesCount pc'
  ∧ ReplaceResourcesCount pc' ≤ CreateResourcesCount pc'
  ∧ ReplaceResourcesCount pc' ≤ DestroyResourcesCount pc'.
Proof.
  revert pc. induction rcs as [|rc rcs IH]; intros pc.
  { by intros [= <-]. }
  unfold process_records in *. simpl.
  destruct (process_record pc rc) as [e|pc1] eqn:Hstep; [done|]. simpl.
  intros Hrest H1 H2 H3. apply (IH _ Hrest);
    apply process_record_step in Hstep
      as [->|(body & c & u & d & r & i & -> & ? & ? & ?)];
    simpl; rewrite ?length_app; simpl; lia.
Qed.

Lemma process_records_monotone pc rcs pc' :
  process_records pc rcs = Returned pc' →
  CreateResourcesCount pc ≤ CreateResourcesCount pc'
  ∧ UpdateResourcesCount pc ≤ UpdateResourcesCount pc'
  ∧ DestroyResourcesCount pc ≤ DestroyResourcesCount pc'
  ∧ ReplaceResourcesCount pc ≤ ReplaceResourcesCount pc'
  ∧ ImportResourcesCount pc ≤ ImportResourcesCount pc'
  ∧ length (ResouceChangeBody pc) ≤ length (ResouceChangeBody pc').
Proof.
  revert pc. induction rcs as [|rc rcs IH]; intros pc.
  { intros [= <-]. lia. }
  unfold process_records in *. simpl.
  destruct (process_record pc rc) as [e|pc1] eqn:Hstep; [done|]. simpl.
  intros Hrest. specialize (IH _ Hrest).
  apply process_record_step in Hstep
    as [->|(body & c & u & d & r & i & -> & ? & ? & ?)];
    simpl in *; rewrite ?length_app in *; simpl in *; lia.
Qed.

(** The loop raises no exception on records that have their [change] and
    its [actions]. *)
Lemma process_records_total pc rcs :
  Forall (λ rc, ∃ details acts,
            change rc = Some details ∧ actions details = Some acts) rcs →
  ∃ pc', process_records pc rcs = Returned pc'.
Proof.
  intros Hall. revert pc.
  induction Hall as [|rc rcs (details & acts & Hc & Ha) _ IH]; intros pc.
  { by exists pc. }
  unfold process_records in *. simpl.
  rewrite (process_record_unfold _ _ _ _ Hc Ha).
  destruct (resolve_action _ _ _) as [[pc1 action] []]; simpl; apply IH.
Qed.

(** Records that are no-ops and no imports leave the accumulator alone. *)
Lemma process_records_noop pc rcs :
  Forall (λ rc, ∃ details acts,
            change rc = Some details ∧ actions details = Some acts
            ∧ head acts = Some "no-op" ∧ importing details = None) rcs →
  process_records pc rcs = Returned pc.
Proof.
  induction 1 as [|rc rcs (details & acts & Hc & Ha & Hh & Hi) _ IH]; [done|].
  unfold process_records in *. simpl.
  rewrite (process_record_unfold _ _ _ _ Hc Ha).
  unfold resolve_action. rewrite Hh, Hi. simpl. apply IH.
Qed.

End Classifier.

(** ** The redactor on collections *)

(** C1 (the code departs from the claim).  The attribute [tags] of
    [tags_unchanged] is marked in [after_sensitive] and holds the same map
    before and after the change; the redactor compares the two maps with
    [===], finds two different objects, and leaves the key on both sides
    with the two placeholders instead of removing it. *)
Theorem unchanged_collection_is_masked :
  marked "tags" tags_unchanged
  ∧ or_empty (before tags_unchanged) !! "tags"
    = or_empty (after tags_unchanged) !! "tags"
  ∧ (redact tags_unchanged).1 !! "tags" = Some (VStr OLD_SENSITIVE_VALUE)
  ∧ (redact tags_unchanged).2 !! "tags" = Some (VStr NEW_SENSITIVE_VALUE).
Proof.
  split_and!.
  - right. vm_compute. eauto.
  - by vm_compute.
  - by vm_compute.
  - by vm_compute.
Qed.

(** The same record, with the changed password and the unchanged token of
    [password_rotated]: the password is masked, the token is gone. *)
Example password_rotated_redacted :
  (redact password_rotated).1 !! "password" = Some (VStr OLD_SENSITIVE_VALUE)
  ∧ (redact password_rotated).2 !! "password" = Some (VStr NEW_SENSITIVE_VALUE)
  ∧ (redact password_rotated).1 !! "token" = None
  ∧ (redact password_rotated).2 !! "token" = None.
Proof. by vm_compute. Qed.

(** ** The claims on the classifier *)

Section Claims.
Context {number : Type} `{!EqDecision number} `{!Externals number}.
Implicit Types (planChanges pc : PlanChanges) (rc : ResourceChange number).
Implicit Types (details : Change number) (acts : list string).
Implicit Types (inputs : Inputs) (plan : Plan number).

(** C3.  A record whose first action is ["no-op"]: with an [importing]
    property the import counter grows by one, the four other counters stay
    as they are, and one change is recorded, of action [Import], under the
    address of the record, with the rendered diff of its redacted values;
    without one the accumulator stays as it is. *)
Theorem noop_import_or_skip pc rc details acts :
  change rc = Some details → actions details = Some acts →
  head acts = Some "no-op" →
  (is_Some (importing details) →
     ∃ pc',
       process_record pc rc = Returned pc'
       ∧ ImportResourcesCount pc' = ImportResourcesCount pc + 1
       ∧ CreateResourcesCount pc' = CreateResourcesCount pc
       ∧ UpdateResourcesCount pc' = UpdateResourcesCount pc
       ∧ DestroyResourcesCount pc' = DestroyResourcesCount pc
       ∧ ReplaceResourcesCount pc' = ReplaceResourcesCount pc
       ∧ ResouceChangeBody pc'
         = ResouceChangeBody pc ++
           [ {| Address := address rc;
                ChangeDif := render_change (address rc) (redact details).1
                               (redact details).2 "Import";
                Action := "Import" |} ])
  ∧ (importing details = None → process_record pc rc = Returned pc).
Proof.
  intros Hc Ha Hh. rewrite (process_record_unfold _ _ _ _ Hc Ha).
  unfold resolve_action. rewrite Hh. simpl. split.
  - intros Hi. rewrite bool_decide_eq_true_2 by done.
    eexists. split; [done|]. simpl. split_and!; try done; lia.
  - by intros ->.
Qed.

(** C4 (as amended).  A record whose first verb is none of ["no-op"],
    ["create"], ["delete"], ["update"] is skipped: no change is recorded, no
    counter moves, no exception is raised, and the loop goes on with the
    next record. *)
Theorem unknown_verb_is_skipped pc rc details acts verb :
  change rc = Some details → actions details = Some acts →
  head acts = Some verb →
  verb ∉ ["no-op"; "create"; "delete"; "update"] →
  process_record pc rc = Returned pc
  ∧ ∀ rest, process_records pc (rc :: rest) = process_records pc rest.
Proof.
  intros Hc Ha Hh Hv.
  assert (process_record pc rc = Returned pc) as Hskip.
  { rewrite (process_record_unfold _ _ _ _ Hc Ha).
    rewrite resolve_action_unknown; [done|]. intros v. rewrite Hh. by intros [= <-]. }
  split; [done|]. intros rest. unfold process_records. simpl. by rewrite Hskip.
Qed.

(** C5 (as amended).  The headers of the patch: for [Create], [Update] and
    [Import] the new header is the action and the old header is left out;
    for [Destroy] and [Replace] the old header is the action and the new
    header is left out. *)
Theorem patch_headers_by_action resourceAddress
    (beforeChanges afterChanges : gmap string (value number)) action :
  (action ∈ ["Create"; "Update"; "Import"] →
     render_change resourceAddress beforeChanges afterChanges action
     = add_heading resourceAddress
         (sanitize_diff
            (createPatch resourceAddress (yaml_stringify beforeChanges)
               (yaml_stringify afterChanges) None (Some action))))
  ∧ (action ∈ ["Destroy"; "Replace"] →
       render_change resourceAddress beforeChanges afterChanges action
       = add_heading resourceAddress
           (sanitize_diff
              (createPatch resourceAddress (yaml_stringify beforeChanges)
                 (yaml_stringify afterChanges) (Some action) None))).
Proof.
  unfold render_change. rewrite !elem_of_cons, !elem_of_nil.
  split; intros H; by destruct_or!; subst.
Qed.

(** C10.  After any prefix of the records of a plan has been processed, the
    number of changes collected is the sum of the create, update, destroy
    and import counters less the replace counter, the replace counter is at
    most the create and the destroy counter, and no counter is lower after a
    longer prefix. *)
Theorem accumulator_invariant (processed : list (ResourceChange number)) pc :
  process_records empty_changes processed = Returned pc →
  length (ResouceChangeBody pc)
  = CreateResourcesCount pc + UpdateResourcesCount pc
    + DestroyResourcesCount pc + ImportResourcesCount pc
    - ReplaceResourcesCount pc
  ∧ ReplaceResourcesCount pc
    ≤ CreateResourcesCount pc `min` DestroyResourcesCount pc
  ∧ ∀ more pc',
      process_records empty_changes (processed ++ more) = Returned pc' →
      CreateResourcesCount pc ≤ CreateResourcesCount pc'
      ∧ UpdateResourcesCount pc ≤ UpdateResourcesCount pc'
      ∧ DestroyResourcesCount pc ≤ DestroyResourcesCount pc'
      ∧ ReplaceResourcesCount pc ≤ ReplaceResourcesCount pc'
      ∧ ImportResourcesCount pc ≤ ImportResourcesCount pc'.
Proof.
  intros Hpc.
  destruct (process_records_accounted _ _ _ Hpc) as (H1 & H2 & H3);
    [simpl; lia..|].
  split_and!; [lia|lia|].
  intros more pc'. rewrite process_records_app, Hpc. simpl.
  intros Hmore%process_records_monotone. tauto.
Qed.

End Claims.

(** ** The clean-up of the diff *)

Lemma line_list_elem ls l :
  line_list ls → l ∈ ls → ∃ b, single_line b ∧ (l = b +:+ nl ∨ l = b).
Proof.
  induction 1 as [|ls _ IH|b ls Hb _ IH|b Hb]; rewrite ?elem_of_cons.
  - by intros ?%elem_of_nil.
  - intros [->|Hl]; [exists ""; split; [done|by right]|auto].
  - intros [->|Hl]; [exists b; split; [done|by left]|auto].
  - intros [->|?%elem_of_nil]; [exists b; split; [done|by right]|done].
Qed.

Lemma line_content_single_line b : single_line b → line_content b = b.
Proof.
  induction b as [|c b IH]; simpl; [done|].
  intros (-> & _ & Hb). by rewrite IH.
Qed.

Lemma line_content_line b : single_line b → line_content (b +:+ nl) = b.
Proof.
  induction b as [|c b IH]; simpl; [done|].
  intros (-> & _ & Hb). by rewrite IH.
Qed.

(** A line that is no addition and no deletion is dropped. *)
Lemma clean_line_context l : change_line l = false → clean_line l = "".
Proof. intros H. unfold clean_line, keep_change. by rewrite H. Qed.

(** A line that is just the marker of an empty mapping is dropped. *)
Lemma clean_line_empty_mapping b :
  b = "+{}" ∨ b = "-{}" → clean_line b = "" ∧ clean_line (b +:+ nl) = "".
Proof. by intros [->| ->]. Qed.

(** An addition or deletion that does not begin with such a marker is
    kept as it is. *)
Lemma clean_line_kept l :
  change_line l = true →
  strip_prefix "+{}" l = None → strip_prefix "-{}" l = None →
  clean_line l = l.
Proof.
  intros H Hp Hm. unfold clean_line, keep_change, strip_line. rewrite H.
  change (empty_marker "-") with "-{}". rewrite Hm.
  change (empty_marker "+") with "+{}". by rewrite Hp.
Qed.

(** What the clean-up does to the lines of a patch. *)
Lemma rendered_diff_lines_aux changeDiff :
  no_cr changeDiff →
  sanitize_diff changeDiff = unlines (clean_line <$> lines changeDiff)
  ∧ ∀ l, l ∈ lines changeDiff →
      (change_line l = false → clean_line l = "")
      ∧ (line_content l = "+{}" ∨ line_content l = "-{}" → clean_line l = "")
      ∧ (change_line l = true →
         strip_prefix "+{}" l = None → strip_prefix "-{}" l = None →
         clean_line l = l).
Proof.
  intros Hcr. split; [by apply sanitize_diff_lines|].
  intros l Hl. split_and!.
  - apply clean_line_context.
  - destruct (line_list_elem _ _ (lines_line_list changeDiff Hcr) Hl)
      as (b & Hb & [-> | ->]).
    + rewrite line_content_line by done.
      intros H. by apply clean_line_empty_mapping.
    + rewrite line_content_single_line by done.
      intros H. by apply clean_line_empty_mapping.
  - apply clean_line_kept.
Qed.

Section RenderedDiff.
Context {number : Type} `{!EqDecision number} `{!Externals number}.


End RenderedDiff.

(** On a patch none of whose kept lines begins with [+{}] or [-{}], the
    clean-up is the filter that keeps these lines. *)
Lemma sanitize_diff_filter changeDiff :
  no_cr changeDiff →
  (∀ l, l ∈ lines changeDiff → kept_line l = true →
     strip_prefix "+{}" l = None ∧ strip_prefix "-{}" l = None) →
  sanitize_diff changeDiff
  = unlines (filter (λ l, kept_line l = true) (lines changeDiff)).
Proof.
  intros Hcr Hplain. rewrite sanitize_diff_lines by done.
  assert (∀ l, l ∈ lines changeDiff →
            clean_line l = if kept_line l then l else "") as Hclean.
  { intros l Hl.
    destruct (proj2 (rendered_diff_lines_aux changeDiff Hcr) l Hl)
      as (H1 & H2 & H3).
    specialize (Hplain l Hl). unfold kept_line in *.
    destruct (change_line l); simpl in *; [|by apply H1].
    destruct (String.eqb_spec (line_content l) "+{}") as [E|_]; simpl in *;
      [by apply H2; left|].
    destruct (String.eqb_spec (line_content l) "-{}") as [E|_]; simpl in *;
      [by apply H2; right|].
    destruct Hplain; [done|]. by apply H3. }
  clear Hplain. induction (lines changeDiff) as [|l ls IH]; [done|].
  rewrite fmap_cons, filter_cons. simpl.
  rewrite Hclean by left. rewrite IH by (intros; apply Hclean; by right).
  by destruct (kept_line l);
    [rewrite decide_True by done|rewrite decide_False by done].
Qed.

(** A carriage return ends a line as well, and is never part of a match:
    the line feed after it is an empty line of its own, which step 1
    drops. *)
Example sanitize_diff_carriage_return :
  sanitize_diff ("+a: 1" +:+ String CR nl +:+ "  b" +:+ String CR nl)
  = "+a: 1" +:+ String CR (String CR "")
  ∧ sanitize_diff ("+x" +:+ String CR "" +:+ "-{}y" +:+ nl)
    = "+x" +:+ String CR "" +:+ "y" +:+ nl
  ∧ sanitize_diff ("+x" +:+ String CR "" +:+ "y" +:+ nl)
    = "+x" +:+ String CR "".
Proof. by vm_compute. Qed.

(** The two patterns of step 2 are not anchored at the end of the line. *)
Example sanitize_diff_unanchored :
  sanitize_diff ("-{}x" +:+ nl +:+ "+{}" +:+ nl +:+ " ctx" +:+ nl +:+ "+a: 1")
  = "x" +:+ nl +:+ "+a: 1".
Proof. reflexivity. Qed.

(** ** The comment body and the run *)

Section Report.
Context {number : Type} `{!EqDecision number} `{!Externals number}.
Implicit Types (planChanges pc : PlanChanges) (inputs : Inputs).
Implicit Types (plan : Plan number) (bodies : list ResourceChangeBody).

(** The content of a category begins with its title. *)
Lemma section_content_title title action bodies :
  ∃ rest,
    section_content title action bodies
    = (nl +:+ "#### Resources to " +:+ title +:+ ":" +:+ nl +:+ nl) +:+ rest.
Proof.
  unfold section_content.
  generalize (nl +:+ "#### Resources to " +:+ title +:+ ":" +:+ nl +:+ nl).
  induction bodies as [|body bodies IH] using rev_ind; intros init.
  - exists "". by rewrite append_empty_r.
  - rewrite foldl_app. destruct (IH init) as [rest ->]. simpl.
    destruct (String.eqb _ _); [|by eauto].
    eexists. by rewrite !append_assoc.
Qed.

(** The first letter of the title tells the five contents apart, and from
    the empty string. *)
Lemma section_content_initial title action bodies c :
  String.get 0 title = Some c →
  String.get 19 (section_content title action bodies) = Some c.
Proof.
  intros Hc. destruct (section_content_title title action bodies) as [rest ->].
  rewrite <- String.append_correct1.
  - destruct title; [done|]. by simplify_eq/=.
  - destruct title; [done|]. simpl. lia.
Qed.

(** The content of a category is among the five interpolations exactly
    when its condition on the counters holds. *)
Lemma emitted_sections_member pc :
  (resourcesToCreateContent (ResouceChangeBody pc) ∈ emitted_sections pc
     ↔ ReplaceResourcesCount pc < CreateResourcesCount pc)
  ∧ (resourcesToDestroyContent (ResouceChangeBody pc) ∈ emitted_sections pc
     ↔ ReplaceResourcesCount pc < DestroyResourcesCount pc)
  ∧ (resourcesToUpdateContent (ResouceChangeBody pc) ∈ emitted_sections pc
     ↔ 0 < UpdateResourcesCount pc)
  ∧ (resourcesToReplaceContent (ResouceChangeBody pc) ∈ emitted_sections pc
     ↔ 0 < ReplaceResourcesCount pc)
  ∧ (resourcesToImportContent (ResouceChangeBody pc) ∈ emitted_sections pc
     ↔ 0 < ImportResourcesCount pc).
Proof.
  pose proof (section_content_initial "create" "Create"
                (ResouceChangeBody pc) _ eq_refl) as Hc.
  pose proof (section_content_initial "destroy" "Destroy"
                (ResouceChangeBody pc) _ eq_refl) as Hd.
  pose proof (section_content_initial "update" "Update"
                (ResouceChangeBody pc) _ eq_refl) as Hu.
  pose proof (section_content_initial "replace" "Replace"
                (ResouceChangeBody pc) _ eq_refl) as Hr.
  pose proof (section_content_initial "import" "Import"
                (ResouceChangeBody pc) _ eq_refl) as Hi.
  unfold emitted_sections, resourcesToCreateContent, resourcesToDestroyContent,
    resourcesToUpdateContent, resourcesToReplaceContent,
    resourcesToImportContent.
  rewrite !elem_of_cons, !elem_of_nil.
  split_and!;
    (split; [|intros H; rewrite (bool_decide_eq_true_2 _ H); auto 10]);
    intros H; destruct_or!; try done;
    repeat case_bool_decide; try done;
    apply (f_equal (String.get 19)) in H; simpl in H; congruence.
Qed.

(** The content of a category is not empty. *)
Lemma section_content_nonempty title action bodies :
  section_content title action bodies ≠ "".
Proof.
  destruct (section_content_title title action bodies) as [rest ->]. done.
Qed.

Lemma emitted_iff_decide content (condition : Prop) `{!Decision condition} :
  content ≠ "" →
  emitted_iff (if bool_decide condition then content else "") content
    condition.
Proof.
  intros Hne. unfold emitted_iff. case_bool_decide; naive_solver.
Qed.

(** C8.  The comment body is its heading, the five badges and the opening
    of the details, then five pieces, each followed by a line feed, then the
    closing of the details and the footer.  The first piece is the content
    of the create category exactly when the create counter exceeds the
    replace counter, the second that of the destroy category exactly when
    the destroy counter exceeds the replace counter, the third, fourth and
    fifth those of the update, replace and import categories exactly when
    their counter is positive; a piece that is not the content of its
    category is empty. *)
Theorem sections_emitted expand header pc :
  ∃ create destroy update replace import,
    commentBody expand header pc
    = nl +:+ "<b>" +:+ header +:+ "<b>" +:+ nl +:+ nl +:+
      badge "Create" (CreateResourcesCount pc) "brightgreen" +:+ " " +:+
      badge "Update" (UpdateResourcesCount pc) "yellow" +:+ " " +:+
      badge "Replace" (ReplaceResourcesCount pc) "orange" +:+ " " +:+
      badge "Destroy" (DestroyResourcesCount pc) "red" +:+ " " +:+
      badge "Import" (ImportResourcesCount pc) "blue" +:+ nl +:+
      "<details" +:+ (if expand then " open" else "") +:+ ">" +:+ nl +:+
      "<summary>" +:+ nl +:+
      "<b>Resource changes:</b>" +:+ nl +:+
      "</summary>" +:+ nl +:+ nl +:+
      create +:+ nl +:+
      destroy +:+ nl +:+
      update +:+ nl +:+
      replace +:+ nl +:+
      import +:+ nl +:+
      "</details>" +:+ nl +:+ nl +:+
      COMMENT_FOOTER +:+ nl
    ∧ emitted_iff create (resourcesToCreateContent (ResouceChangeBody pc))
        (ReplaceResourcesCount pc < CreateResourcesCount pc)
    ∧ emitted_iff destroy (resourcesToDestroyContent (ResouceChangeBody pc))
        (ReplaceResourcesCount pc < DestroyResourcesCount pc)
    ∧ emitted_iff update (resourcesToUpdateContent (ResouceChangeBody pc))
        (0 < UpdateResourcesCount pc)
    ∧ emitted_iff replace (resourcesToReplaceContent (ResouceChangeBody pc))
        (0 < ReplaceResourcesCount pc)
    ∧ emitted_iff import (resourcesToImportContent (ResouceChangeBody pc))
        (0 < ImportResourcesCount pc).
Proof.
  eexists _, _, _, _, _. split_and!.
  2-6: apply emitted_iff_decide, section_content_nonempty.
  unfold commentBody, emitted_sections. cbn [foldr].
  by rewrite !append_assoc.
Qed.

Lemma collect_comments_app inputs (plans1 plans2 : list (Plan number)) acc :
  collect_comments inputs (plans1 ++ plans2) acc
  = match collect_comments inputs plans1 acc with
    | inl f => inl f
    | inr acc' => collect_comments inputs plans2 acc'
    end.
Proof.
  revert acc. induction plans1 as [|plan plans1 IH]; intros acc; [done|].
  simpl. destruct (process_plan inputs plan); [done|apply IH..].
Qed.

(** C7.  A plan whose comment body is longer than 65536 fails the run with
    the message that names the length and the maximum; the run stops there
    and makes no call to GitHub, whatever GitHub would answer, so neither
    this body, whole or cut, nor any other comment is posted. *)
Theorem oversized_comment_fails inputs plan pc :
  process_changes plan = Returned pc →
  ResouceChangeBody pc ≠ [] →
  let body :=
    commentBody (expandComment inputs) (resolve_header inputs plan) pc in
  (MAX_GITHUB_COMMENT_BODY_SIZE < N.of_nat (String.length body))%N →
  MAX_GITHUB_COMMENT_BODY_SIZE = 65536%N
  ∧ let message :=
      "Comment body size is too large for GitHub comment: "
        +:+ pretty (String.length body) +:+ " > " +:+ "65536" in
    process_plan inputs plan = PlanFailed (Message message)
    ∧ ∀ gh earlier later comments,
        collect_comments inputs earlier [] = inr comments →
        run gh inputs (earlier ++ plan :: later)
        = (Some (Message message), []).
Proof.
  intros Hpc Hne body Hlarge. split; [done|]. intros message.
  assert (process_plan inputs plan = PlanFailed (Message message)) as Hfail.
  { unfold process_plan. rewrite Hpc.
    rewrite bool_decide_eq_false_2
      by (by destruct (ResouceChangeBody pc)).
    fold body. by rewrite bool_decide_eq_true_2 by done. }
  split; [done|]. intros gh earlier later comments Hearlier.
  unfold run. rewrite collect_comments_app, Hearlier. simpl. by rewrite Hfail.
Qed.

(** C9.  A plan that yields no change is skipped: no comment body is built
    for it, and the run is the run without that plan; a run of such a plan
    alone makes no call to GitHub, whatever GitHub would answer. *)
Theorem no_changes_no_comment inputs plan pc :
  process_changes plan = Returned pc →
  ResouceChangeBody pc = [] →
  process_plan inputs plan = PlanSkipped
  ∧ (∀ gh earlier later,
       run gh inputs (earlier ++ plan :: later)
       = run gh inputs (earlier ++ later))
  ∧ ∀ gh, run gh inputs [plan] = (None, []).
Proof.
  intros Hpc Hnone.
  assert (process_plan inputs plan = PlanSkipped) as Hskip.
  { unfold process_plan. by rewrite Hpc, Hnone. }
  split_and!; [done| |].
  - intros gh earlier later. unfold run. rewrite !collect_comments_app.
    destruct (collect_comments inputs earlier []); [done|]. simpl.
    by rewrite Hskip.
  - intros gh. unfold run. simpl. by rewrite Hskip.
Qed.

(** A plan all of whose records are no-ops, and no imports, is such a plan. *)
Lemma noop_plan_no_changes plan (records : list (ResourceChange number)) :
  resource_changes plan = Some records →
  Forall (λ rc, ∃ details acts,
            change rc = Some details ∧ actions details = Some acts
            ∧ head acts = Some "no-op" ∧ importing details = None) records →
  process_changes plan = Returned empty_changes.
Proof.
  intros Hr Hall. unfold process_changes. rewrite Hr.
  by apply process_records_noop.
Qed.

End Report.

(** ** The claims on concrete plans *)

(** The heading under a variable name that the variables of the plan own,
    under one they inherit, and under one they do not have. *)
Example resolve_header_sample :
  let inputs name :=
    {| expandComment := false; headingPlanVariableName := name;
       commentHeader := "Terraform plan" |} in
  let plan : Plan Z :=
    {| tfPlan := "tfplan.json"; variables := Some {[ "env" := "staging" ]};
       resource_changes := Some [] |} in
  resolve_header (inputs "env") plan = "staging"
  ∧ resolve_header (inputs "constructor") plan = "undefined"
  ∧ resolve_header (inputs "region") plan = "Terraform plan"
  ∧ resolve_header (inputs "") plan = "Terraform plan".
Proof. by vm_compute. Qed.

(** The redactor under a marked name of the prototype that one side has:
    the other side gains the name, with its placeholder. *)
Example constructor_added_redacted :
  or_empty (before constructor_added) !! "constructor" = None
  ∧ (redact constructor_added).1 !! "constructor"
    = Some (VStr OLD_SENSITIVE_VALUE)
  ∧ (redact constructor_added).2 !! "constructor"
    = Some (VStr NEW_SENSITIVE_VALUE)
  ∧ (redact constructor_added).1 !! "name" = Some (VStr "web").
Proof. by vm_compute. Qed.

(** A run whose query of the comments rejects, and one whose second
    [createComment] does. *)
Example run_github_rejects :
  run query_fails sample_inputs [sample_plan [acl_update]]
  = (Some (Message "Bad credentials"),
     [RemoveCommentsByLookupText COMMENT_FOOTER])
  ∧ posted (run second_create_fails sample_inputs
              [sample_plan [acl_update]; sample_plan [acl_update];
               sample_plan [acl_update]]).2
    = [commentBody false "Terraform plan"
         (push {| Address := "aws_s3_bucket.x";
                  ChangeDif := render_change "aws_s3_bucket.x"
                                 {[ "acl" := VStr "private" ]}
                                 {[ "acl" := VStr "public" ]} "Update";
                  Action := "Update" |}
            (count 0 1 0 0 0 empty_changes));
       commentBody false "Terraform plan"
         (push {| Address := "aws_s3_bucket.x";
                  ChangeDif := render_change "aws_s3_bucket.x"
                                 {[ "acl" := VStr "private" ]}
                                 {[ "acl" := VStr "public" ]} "Update";
                  Action := "Update" |}
            (count 0 1 0 0 0 empty_changes))].
Proof. by vm_compute. Qed.

(** C2 (the code departs from the claim).  The actions of
    [create_before_destroy] contain both ["create"] and ["delete"]; the
    switch looks at the first one only, records the change as [Create] and
    increments the create counter alone. *)
Theorem create_before_destroy_is_create (libs : Externals Z) pc :
  actions <$> change create_before_destroy = Some (Some ["create"; "delete"])
  ∧ ∃ body,
      (process_record (libs := libs) pc create_before_destroy
       = Returned (push body (count 1 0 0 0 0 pc)))
      ∧ Action body = "Create".
Proof. split; [done|]. by eexists. Qed.

Lemma noop_import_or_skip_witness :
  (∃ pc',
     process_record empty_changes imported = Returned pc'
     ∧ ImportResourcesCount pc' = 1
     ∧ CreateResourcesCount pc' = 0
     ∧ UpdateResourcesCount pc' = 0
     ∧ DestroyResourcesCount pc' = 0
     ∧ ReplaceResourcesCount pc' = 0
     ∧ ResouceChangeBody pc'
       = [ {| Address := "aws_vpc.main";
              ChangeDif := render_change "aws_vpc.main"
                             {[ "cidr" := VStr "10.0.0.0/16" ]}
                             {[ "cidr" := VStr "10.0.0.0/16" ]} "Import";
              Action := "Import" |} ])
  ∧ process_record empty_changes unchanged = Returned empty_changes.
Proof.
  split.
  - refine (proj1 (noop_import_or_skip empty_changes imported _ _
                     eq_refl eq_refl eq_refl) _).
    vm_compute. eauto.
  - exact (proj2 (noop_import_or_skip empty_changes unchanged _ _
                    eq_refl eq_refl eq_refl) eq_refl).
Defined.

(** C4 (the claim fails).  The only record of the plan has the first verb
    ["read"]; the plan is processed without a failure, and skipped for want
    of changes. *)
Lemma unknown_verb_is_not_fatal :
  (actions <$> change data_read) = Some (Some ["read"])
  ∧ ("read" ∉ ["no-op"; "create"; "delete"; "update"])
  ∧ process_changes (sample_plan [data_read]) = Returned empty_changes
  ∧ process_plan sample_inputs (sample_plan [data_read]) = PlanSkipped
  ∧ run steady sample_inputs [sample_plan [data_read]] = (None, []).
Proof.
  split_and!; try by vm_compute.
  rewrite !not_elem_of_cons. split_and!; try done. apply not_elem_of_nil.
Qed.

Lemma unknown_verb_is_skipped_witness :
  process_record empty_changes data_read = Returned empty_changes
  ∧ ∀ rest,
      process_records empty_changes (data_read :: rest)
      = process_records empty_changes rest.
Proof.
  apply (unknown_verb_is_skipped empty_changes data_read _ ["read"] "read"
           eq_refl eq_refl eq_refl).
  rewrite !not_elem_of_cons. split_and!; try done. apply not_elem_of_nil.
Defined.

(** C5 (the claim fails).  The headers of a [Replace] are those of a
    [Destroy], with the action in the old header, and not those of a
    [Create]. *)
Lemma replace_is_labelled_like_destroy :
  patch_headers "Replace" = (Some "Replace", None)
  ∧ patch_headers "Destroy" = (Some "Destroy", None)
  ∧ patch_headers "Create" = (None, Some "Create")
  ∧ patch_headers "Replace" ≠ (None, Some "Replace")
  ∧ render_change "r" ∅ ∅ "Replace"
    ≠ add_heading "r"
        (sanitize_diff
           (createPatch "r" (yaml_stringify ∅) (yaml_stringify ∅)
              None (Some "Replace"))).
Proof. split_and!; by vm_compute. Qed.

Lemma patch_headers_by_action_witness :
  render_change "r" ∅ ∅ "Update"
  = add_heading "r"
      (sanitize_diff
         (createPatch "r" (yaml_stringify ∅) (yaml_stringify ∅)
            None (Some "Update")))
  ∧ render_change "r" ∅ ∅ "Replace"
    = add_heading "r"
        (sanitize_diff
           (createPatch "r" (yaml_stringify ∅) (yaml_stringify ∅)
              (Some "Replace") None)).
Proof.
  split.
  - apply (proj1 (patch_headers_by_action "r" ∅ ∅ "Update")).
    rewrite !elem_of_cons. auto.
  - apply (proj2 (patch_headers_by_action "r" ∅ ∅ "Replace")).
    rewrite !elem_of_cons. auto.
Defined.


Lemma sections_emitted_witness :
  ∃ create destroy update replace import,
    commentBody false "Terraform plan" (count 2 0 1 1 0 empty_changes)
    = nl +:+ "<b>Terraform plan<b>" +:+ nl +:+ nl +:+
      badge "Create" 2 "brightgreen" +:+ " " +:+
      badge "Update" 0 "yellow" +:+ " " +:+
      badge "Replace" 1 "orange" +:+ " " +:+
      badge "Destroy" 1 "red" +:+ " " +:+
      badge "Import" 0 "blue" +:+ nl +:+
      "<details>" +:+ nl +:+
      "<summary>" +:+ nl +:+
      "<b>Resource changes:</b>" +:+ nl +:+
      "</summary>" +:+ nl +:+ nl +:+
      create +:+ nl +:+
      destroy +:+ nl +:+
      update +:+ nl +:+
      replace +:+ nl +:+
      import +:+ nl +:+
      "</details>" +:+ nl +:+ nl +:+
      COMMENT_FOOTER +:+ nl
    ∧ create = resourcesToCreateContent []
    ∧ destroy = ""
    ∧ update = ""
    ∧ replace = resourcesToReplaceContent []
    ∧ import = "".
Proof.
  destruct (sections_emitted false "Terraform plan"
              (count 2 0 1 1 0 empty_changes))
    as (create & destroy & update & replace & import
        & Hbody & Hc & Hd & Hu & Hr & Hi).
  exists create, destroy, update, replace, import.
  split; [exact Hbody|]. split_and!.
  - apply Hc. simpl. lia.
  - apply Hd. simpl. lia.
  - apply Hu. simpl. lia.
  - apply Hr. simpl. lia.
  - apply Hi. simpl. lia.
Defined.

Lemma oversized_comment_fails_witness :
  ∃ size,
    (65536 < N.of_nat size)%N
    ∧ run steady long_inputs
        [sample_plan [unchanged]; sample_plan [acl_update];
         sample_plan [imported]]
      = (Some (Message ("Comment body size is too large for GitHub comment: "
                          +:+ pretty size +:+ " > " +:+ "65536")), []).
Proof.
  pose (pc := push {| Address := "aws_s3_bucket.x";
                      ChangeDif := render_change "aws_s3_bucket.x"
                                     {[ "acl" := VStr "private" ]}
                                     {[ "acl" := VStr "public" ]} "Update";
                      Action := "Update" |}
                (count 0 1 0 0 0 empty_changes)).
  assert (process_changes (sample_plan [acl_update]) = Returned pc) as Hpc
    by (vm_compute; reflexivity).
  assert (ResouceChangeBody pc ≠ []) as Hne by done.
  assert (MAX_GITHUB_COMMENT_BODY_SIZE
          < N.of_nat (String.length
                        (commentBody (expandComment long_inputs)
                           (resolve_header long_inputs (sample_plan [acl_update]))
                           pc)))%N as Hlarge
    by (vm_compute; reflexivity).
  destruct (oversized_comment_fails long_inputs (sample_plan [acl_update]) pc
              Hpc Hne Hlarge) as [_ [_ Hrun]].
  eexists. split; [exact Hlarge|].
  apply (Hrun steady [sample_plan [unchanged]] [sample_plan [imported]] []).
  vm_compute. reflexivity.
Defined.

Lemma no_changes_no_comment_witness :
  process_plan sample_inputs (sample_plan [unchanged; unchanged]) = PlanSkipped
  ∧ (∀ gh earlier later,
       run gh sample_inputs
         (earlier ++ sample_plan [unchanged; unchanged] :: later)
       = run gh sample_inputs (earlier ++ later))
  ∧ ∀ gh, run gh sample_inputs [sample_plan [unchanged; unchanged]]
          = (None, []).
Proof.
  apply (no_changes_no_comment sample_inputs
           (sample_plan [unchanged; unchanged]) empty_changes).
  - vm_compute. reflexivity.
  - reflexivity.
Defined.

Lemma accumulator_invariant_witness :
  ∃ pc,
    process_records empty_changes [acl_update; destroy_then_create; imported]
    = Returned pc
    ∧ length (ResouceChangeBody pc) = 3
    ∧ CreateResourcesCount pc + UpdateResourcesCount pc
      + DestroyResourcesCount pc + ImportResourcesCount pc
      - ReplaceResourcesCount pc = 3
    ∧ ReplaceResourcesCount pc
      ≤ CreateResourcesCount pc `min` DestroyResourcesCount pc.
Proof.
  pose (pc := match process_records empty_changes
                      [acl_update; destroy_then_create; imported] with
              | Returned pc => pc
              | Threw _ => empty_changes
              end).
  assert (process_records empty_changes
            [acl_update; destroy_then_create; imported] = Returned pc) as Hpc
    by (vm_compute; reflexivity).
  destruct (accumulator_invariant _ pc Hpc) as (Hlen & Hmin & _).
  exists pc. split_and!.
  - exact Hpc.
  - vm_compute. reflexivity.
  - rewrite <- Hlen. vm_compute. reflexivity.
  - exact Hmin.
Defined.

(** ** Looking for the plan files *)

Section FindPlansProperties.
Variable path_join : string → string → string.
Implicit Types (q r dirs : list queued) (found : list string).
Implicit Types (entries root sub : list (string * fs_entry)).

Lemma entry_dirs_directory entries :
  entry_dirs (Directory entries) = S (dir_count entries).
Proof. reflexivity. Qed.

(** One directory: the subdirectories join the queue, the plan files the
    paths found, both in the order of the listing. *)
Lemma scan_entries_eq planName d q found :
  scan_entries path_join planName (dir d) (depth d) (listing d) (q, found)
  = (q ++ subdirs path_join d, found ++ plans_in path_join planName d).
Proof.
  unfold scan_entries, subdirs, plans_in.
  generalize (dir d) (depth d). intros currentDir currentDepth.
  revert q found.
  induction (listing d) as [|[name stat] entries IH]; intros q found; simpl.
  { by rewrite !app_nil_r. }
  destruct stat as [|sub]; simpl.
  - destruct (String.eqb name planName); simpl; [|apply IH].
    rewrite IH. by rewrite <- app_assoc.
  - rewrite IH. by rewrite <- app_assoc.
Qed.

Lemma search_turn fuel planName maxDepth d rest found :
  search path_join (S fuel) planName maxDepth (d :: rest) found
  = if bool_decide (maxDepth < depth d)
    then search path_join fuel planName maxDepth rest found
    else search path_join fuel planName maxDepth
           (rest ++ subdirs path_join d)
           (found ++ plans_in path_join planName d).
Proof. simpl. by rewrite scan_entries_eq. Qed.

Lemma queue_dirs_subdirs d :
  queue_dirs (subdirs path_join d) = dir_count (listing d).
Proof.
  unfold queue_dirs, subdirs.
  generalize (dir d) (depth d). intros currentDir currentDepth.
  induction (listing d) as [|[name stat] entries IH]; [done|].
  destruct stat as [|sub].
  - exact IH.
  - change (dir_count ((name, Directory sub) :: entries))
      with (S (dir_count sub) + dir_count entries).
    rewrite <- IH. reflexivity.
Qed.

Lemma queue_dirs_app q r : queue_dirs (q ++ r) = queue_dirs q + queue_dirs r.
Proof. apply sum_list_with_app. Qed.

(** The loop ends within one turn for every directory. *)
Lemma search_terminates fuel planName maxDepth q found :
  queue_dirs q ≤ fuel →
  is_Some (search path_join fuel planName maxDepth q found).
Proof.
  revert q found. induction fuel as [|fuel IH]; intros q found Hq.
  - destruct q as [|d q]; [by eexists|]. simpl in Hq. lia.
  - destruct q as [|d q]; [by eexists|]. rewrite search_turn.
    simpl in Hq. case_bool_decide.
    + apply IH. lia.
    + apply IH. rewrite queue_dirs_app, queue_dirs_subdirs. lia.
Qed.

(** A run of the loop that starts with the queue [q ++ r] comes to the
    queue [r] followed by the subdirectories of [q]. *)
Lemma search_queue planName maxDepth q r found fuel res :
  search path_join fuel planName maxDepth (q ++ r) found = Some res →
  ∃ fuel',
    search path_join fuel' planName maxDepth
      (r ++ (within_limit maxDepth q ≫= subdirs path_join))
      (found ++ (within_limit maxDepth q ≫= plans_in path_join planName))
    = Some res.
Proof.
  revert r found fuel. induction q as [|d q IH]; intros r found fuel.
  { simpl. rewrite !app_nil_r. eauto. }
  destruct fuel as [|fuel]; [done|].
  change ((d :: q) ++ r) with (d :: (q ++ r)). rewrite search_turn.
  unfold within_limit. rewrite filter_cons. case_bool_decide as Hd.
  - rewrite decide_False by lia. apply IH.
  - rewrite decide_True by lia. rewrite <- app_assoc. intros H.
    apply IH in H as [fuel' H]. exists fuel'.
    by rewrite !bind_cons, !app_assoc.
Qed.

(** The result of the loop on a queue of directories of one depth. *)
Lemma search_levels planName maxDepth levels dirs found fuel res :
  Forall (λ d, depth d + levels = S maxDepth) dirs →
  search path_join fuel planName maxDepth dirs found = Some res →
  res = found ++ plans_within path_join levels planName dirs.
Proof.
  revert dirs found fuel. induction levels as [|levels IH];
    intros dirs found fuel Hdepth Hres.
  - rewrite <- (app_nil_r dirs) in Hres.
    apply search_queue in Hres as [fuel' Hres].
    assert (within_limit maxDepth dirs = []) as Hnone.
    { clear -Hdepth. unfold within_limit.
      induction Hdepth as [|d dirs Hd _ IH']; [done|].
      by rewrite filter_cons, decide_False by lia. }
    rewrite Hnone in Hres. simpl in *. destruct fuel'; by simplify_eq/=.
  - rewrite <- (app_nil_r dirs) in Hres.
    apply search_queue in Hres as [fuel' Hres].
    assert (within_limit maxDepth dirs = dirs) as Hall.
    { clear -Hdepth. unfold within_limit.
      induction Hdepth as [|d dirs Hd _ IH']; [done|].
      rewrite filter_cons, decide_True by lia. by rewrite IH'. }
    rewrite Hall in Hres. simpl in Hres.
    apply IH in Hres; [by rewrite Hres, <- app_assoc|].
    clear -Hdepth. induction Hdepth as [|d dirs Hd _ IH']; [done|].
    rewrite bind_cons. apply Forall_app. split; [|done].
    unfold subdirs. apply Forall_forall. intros d' Hd'.
    apply list_elem_of_omap in Hd' as ([name stat] & _ & Hd').
    destruct stat; simplify_eq/=. lia.
Qed.

(** [findTFPlans] returns, and what it returns are the plan files of the
    lookup directory and of [maxDepth] levels of directories below it. *)
Lemma findTFPlans_levels lookupDir planName maxDepth root :
  findTFPlans path_join lookupDir planName maxDepth root
  = Some (plans_within path_join (S maxDepth) planName
            [{| dir := lookupDir; depth := 0; listing := root |}]).
Proof.
  unfold findTFPlans.
  set (start := {| dir := lookupDir; depth := 0; listing := root |}).
  destruct (search_terminates (S (dir_count root)) planName maxDepth
              [start] []) as [res Hres].
  { simpl. lia. }
  rewrite Hres. f_equal.
  apply (search_levels _ _ (S maxDepth)) in Hres; [done|].
  by repeat constructor.
Qed.

Lemma join_all_cons start name names :
  join_all path_join start (name :: names)
  = join_all path_join (path_join start name) names.
Proof. done. Qed.

Lemma elem_of_plans_in planName d p :
  p ∈ plans_in path_join planName d ↔
  (planName, RegularFile) ∈ listing d ∧ p = path_join (dir d) planName.
Proof.
  unfold plans_in. rewrite list_elem_of_omap. split.
  - intros ([name stat] & Hin & Hp). destruct stat; simplify_eq/=.
    destruct (String.eqb_spec name planName); by simplify_eq/=.
  - intros [Hin ->]. exists (planName, RegularFile). split; [done|].
    simpl. by rewrite String.eqb_refl.
Qed.

Lemma elem_of_subdirs d d' :
  d' ∈ subdirs path_join d ↔
  ∃ name sub, (name, Directory sub) ∈ listing d
              ∧ d' = {| dir := path_join (dir d) name;
                        depth := depth d + 1; listing := sub |}.
Proof.
  unfold subdirs. rewrite list_elem_of_omap. split.
  - intros ([name stat] & Hin & Hd). destruct stat; simplify_eq/=. eauto.
  - intros (name & sub & Hin & ->). by exists (name, Directory sub).
Qed.

(** The paths of [plans_within]: the plan files fewer than [levels]
    directories below one of [dirs]. *)
Lemma elem_of_plans_within levels planName dirs p :
  p ∈ plans_within path_join levels planName dirs ↔
  ∃ d names sub,
    d ∈ dirs ∧ length names < levels ∧ descend names (listing d) sub
    ∧ (planName, RegularFile) ∈ sub
    ∧ p = path_join (join_all path_join (dir d) names) planName.
Proof.
  revert dirs. induction levels as [|levels IH]; intros dirs; simpl.
  { split; [by intros ?%elem_of_nil|]. intros (?&?&?&?&?&?). lia. }
  rewrite elem_of_app, list_elem_of_bind, IH. split.
  - intros [(d & Hp & Hd)|(d' & names & sub & Hd' & Hlen & Hdesc & Hin & ->)].
    + apply elem_of_plans_in in Hp as [Hin ->].
      exists d, [], (listing d). split_and!; try done; [simpl; lia|constructor].
    + apply list_elem_of_bind in Hd' as (d & Hd' & Hd).
      apply elem_of_subdirs in Hd' as (name & sub0 & Hname & ->).
      exists d, (name :: names), sub. split_and!; try done; [simpl; lia|].
      by econstructor.
  - intros (d & names & sub & Hd & Hlen & Hdesc & Hin & ->).
    inversion Hdesc as [|name names' ? sub0 ? Hname Hrest]; subst.
    + left. exists d. split; [|done]. by apply elem_of_plans_in.
    + right.
      exists {| dir := path_join (dir d) name; depth := depth d + 1;
                listing := sub0 |}, names', sub.
      split_and!; try done; [|simpl in Hlen; lia].
      apply list_elem_of_bind. exists d. split; [|done].
      apply elem_of_subdirs. eauto.
Qed.

Lemma plans_within_prefix levels planName dirs :
  plans_within path_join levels planName dirs
  `prefix_of` plans_within path_join (S levels) planName dirs.
Proof.
  revert dirs. induction levels as [|levels IH]; intros dirs.
  { apply prefix_nil. }
  change (plans_within path_join (S (S levels)) planName dirs)
    with ((dirs ≫= plans_in path_join planName)
            ++ plans_within path_join (S levels) planName
                 (dirs ≫= subdirs path_join)).
  simpl. apply prefix_app, IH.
Qed.

End FindPlansProperties.

(** ** More on the redactor *)

Section RedactorMore.
Context {number : Type} `{!EqDecision number}.
Implicit Types (details : Change number) (k key : string).

(** The result of a loop depends on the set of the keys it visits only. *)
Lemma redact_keys_ext keys keys'
    (changes : gmap string (value number) * gmap string (value number)) :
  (∀ k, k ∈ keys ↔ k ∈ keys') →
  redact_keys keys changes = redact_keys keys' changes.
Proof.
  intros Hsame.
  assert (∀ k, (redact_keys keys changes).1 !! k
               = (redact_keys keys' changes).1 !! k
               ∧ (redact_keys keys changes).2 !! k
                 = (redact_keys keys' changes).2 !! k) as Hk.
  { intros k.
    destruct (redact_keys_lookup keys changes k) as [-> ->].
    destruct (redact_keys_lookup keys' changes k) as [-> ->].
    specialize (Hsame k).
    destruct (decide (k ∈ keys)), (decide (k ∈ keys')); tauto. }
  destruct (redact_keys keys changes) as [b a],
           (redact_keys keys' changes) as [b' a']; simpl in *.
  f_equal; apply map_eq; intros k; apply Hk.
Qed.

(** X1.  An attribute that neither [before_sensitive] nor [after_sensitive]
    marks is left as it is, in [before] and in [after]. *)
Theorem unmarked_attributes_untouched details k :
  ¬ marked k details →
  (redact details).1 !! k = or_empty (before details) !! k
  ∧ (redact details).2 !! k = or_empty (after details) !! k.
Proof. apply redact_unmarked. Qed.

(** X2.  Whatever the plan holds at a marked key, what the redactor leaves
    there, if anything, is the placeholder: the old one in [before], the
    new one in [after]. *)
Theorem marked_value_never_survives details k v :
  marked k details →
  ((redact details).1 !! k = Some v → v = VStr OLD_SENSITIVE_VALUE)
  ∧ ((redact details).2 !! k = Some v → v = VStr NEW_SENSITIVE_VALUE).
Proof. apply redact_no_raw_value. Qed.

(** X3.  The redactor adds no key but a name of the prototype: an
    attribute of the redacted [before] is an attribute of [before], or it
    is a marked name that every object inherits from [Object.prototype],
    other than [__proto__], and that [after] has; the same holds with
    [before] and [after] exchanged. *)
Theorem redact_adds_inherited_names_only details k :
  (is_Some ((redact details).1 !! k) →
   is_Some (or_empty (before details) !! k)
   ∨ (marked k details ∧ k ∈ object_prototype ∧ k ≠ "__proto__"
      ∧ is_Some (or_empty (after details) !! k)))
  ∧ (is_Some ((redact details).2 !! k) →
     is_Some (or_empty (after details) !! k)
     ∨ (marked k details ∧ k ∈ object_prototype ∧ k ≠ "__proto__"
        ∧ is_Some (or_empty (before details) !! k))).
Proof.
  assert (creatable k = true → k ∈ object_prototype ∧ k ≠ "__proto__") as Hc.
  { unfold creatable, inherited. intros [Hi Hp]%andb_prop.
    apply bool_decide_eq_true in Hi. apply negb_true_iff in Hp.
    by apply String.eqb_neq in Hp. }
  destruct (redact_new_key details k) as [H1 H2].
  split; intros Hk; [destruct (H1 Hk) as [|(? & ?%Hc & ?)]
                    |destruct (H2 Hk) as [|(? & ?%Hc & ?)]]; tauto.
Qed.

(** X4.  The two loops together are one loop over the marked keys, in any
    order and with any repetition: neither the order in which [for ... in]
    visits the keys nor the map that marks a key has an influence on the
    result. *)
Theorem redact_is_one_pass details keys :
  (∀ k, k ∈ keys ↔ marked k details) →
  redact details
  = redact_keys keys (or_empty (before details), or_empty (after details)).
Proof.
  intros Hkeys.
  assert (∀ k, (redact details).1 !! k
               = (redact_keys keys (or_empty (before details),
                                    or_empty (after details))).1 !! k
               ∧ (redact details).2 !! k
                 = (redact_keys keys (or_empty (before details),
                                      or_empty (after details))).2 !! k) as Hk.
  { intros k.
    destruct (redact_keys_lookup keys (or_empty (before details),
                                       or_empty (after details)) k)
      as [-> ->].
    destruct (decide (k ∈ keys)) as [Hin|Hnin].
    - apply redact_marked. by apply Hkeys.
    - apply redact_unmarked. by rewrite <- Hkeys. }
  destruct (redact details) as [b a],
           (redact_keys keys _) as [b' a']; simpl in *.
  f_equal; apply map_eq; intros k; apply Hk.
Qed.

(** X5.  A marked key that holds the same string, number, boolean or
    [null] before and after, or is missing on both sides, is removed from
    both. *)
Theorem unchanged_primitive_removed details k :
  marked k details →
  or_empty (before details) !! k = or_empty (after details) !! k →
  (∀ v, or_empty (before details) !! k = Some v → primitive v = true) →
  (redact details).1 !! k = None ∧ (redact details).2 !! k = None.
Proof. apply redact_unchanged_primitive. Qed.

(** X6.  A marked key whose two values differ, which covers the key that
    is present on one side only, holds the placeholder on every side where
    it was present.  On a side where it was absent it stays absent, unless
    it is a name that every object inherits from [Object.prototype], other
    than [__proto__]: such a key ends with the placeholder on both sides. *)
Theorem changed_value_masked details k :
  marked k details →
  or_empty (before details) !! k ≠ or_empty (after details) !! k →
  (redact details).1 !! k
  = (if bool_decide (k ∈ object_prototype ∧ k ≠ "__proto__")
     then Some (VStr OLD_SENSITIVE_VALUE)
     else (λ _, VStr OLD_SENSITIVE_VALUE) <$> or_empty (before details) !! k)
  ∧ (redact details).2 !! k
  = (if bool_decide (k ∈ object_prototype ∧ k ≠ "__proto__")
     then Some (VStr NEW_SENSITIVE_VALUE)
     else (λ _, VStr NEW_SENSITIVE_VALUE) <$> or_empty (after details) !! k).
Proof.
  intros Hk Hne. destruct (redact_changed details k Hk Hne) as [-> ->].
  assert (creatable k = bool_decide (k ∈ object_prototype ∧ k ≠ "__proto__"))
    as ->; [|done].
  unfold creatable, inherited.
  destruct (String.eqb_spec k "__proto__") as [->|Hp].
  - rewrite andb_false_r. symmetry. apply bool_decide_eq_false. tauto.
  - rewrite andb_true_r. apply bool_decide_ext. tauto.
Qed.

End RedactorMore.

(** ** More on the classifier *)

Section ClassifierMore.
Context {number : Type} `{!EqDecision number} `{!Externals number}.
Implicit Types (planChanges pc : PlanChanges) (rc : ResourceChange number).
Implicit Types (details : Change number) (acts : list string).
Implicit Types (inputs : Inputs) (plan : Plan number).

(** What one record adds: nothing, or one change of one of the five
    categories under the address of the record. *)
Lemma process_record_cases pc rc pc' :
  process_record pc rc = Returned pc' →
  pc' = pc ∨
  ∃ body action create update destroy replace import,
    pc' = push body (count create update destroy replace import pc)
    ∧ Address body = address rc ∧ Action body = action
    ∧ (action, (create, update, destroy, replace, import)) ∈ categories.
Proof.
  unfold process_record.
  destruct (change rc) as [details|]; [simpl|done].
  destruct (actions details) as [acts|]; [simpl|done].
  pose proof (resolve_action_cases acts
                (bool_decide (is_Some (importing details))) pc) as Hcases.
  rewrite !elem_of_cons, elem_of_nil in Hcases.
  destruct Hcases as [->|[->|[->|[->|[->|[->|[]]]]]]]; intros [= <-];
    [by left|right..]; eexists _, _, _, _, _, _, _;
    (split_and!; [done..|]); unfold categories; rewrite !elem_of_cons; tauto.
Qed.

Lemma with_action_snoc action bodies body :
  with_action action (bodies ++ [body])
  = with_action action bodies ++ (if decide (Action body = action) then [body] else []).
Proof.
  unfold with_action. rewrite filter_app. by f_equal.
Qed.

(** The counters against the changes of every category. *)
Lemma process_records_by_action pc rcs pc' :
  process_records pc rcs = Returned pc' →
  (length (with_action "Create" (ResouceChangeBody pc))
     + ReplaceResourcesCount pc = CreateResourcesCount pc
   ∧ length (with_action "Destroy" (ResouceChangeBody pc))
     + ReplaceResourcesCount pc = DestroyResourcesCount pc
   ∧ length (with_action "Update" (ResouceChangeBody pc))
     = UpdateResourcesCount pc
   ∧ length (with_action "Replace" (ResouceChangeBody pc))
     = ReplaceResourcesCount pc
   ∧ length (with_action "Import" (ResouceChangeBody pc))
     = ImportResourcesCount pc) →
  length (with_action "Create" (ResouceChangeBody pc'))
    + ReplaceResourcesCount pc' = CreateResourcesCount pc'
  ∧ length (with_action "Destroy" (ResouceChangeBody pc'))
    + ReplaceResourcesCount pc' = DestroyResourcesCount pc'
  ∧ length (with_action "Update" (ResouceChangeBody pc'))
    = UpdateResourcesCount pc'
  ∧ length (with_action "Replace" (ResouceChangeBody pc'))
    = ReplaceResourcesCount pc'
  ∧ length (with_action "Import" (ResouceChangeBody pc'))
    = ImportResourcesCount pc'.
Proof.
  revert pc. induction rcs as [|rc rcs IH]; intros pc.
  { by intros [= <-]. }
  unfold process_records in *. simpl.
  destruct (process_record pc rc) as [e|pc1] eqn:Hstep; [done|]. simpl.
  intros Hrest Hinv. apply (IH _ Hrest). clear IH Hrest.
  apply process_record_cases in Hstep
    as [->|(body & action & c & u & d & r & i & -> & _ & Hact & Hin)];
    [done|].
  unfold categories in Hin. rewrite !elem_of_cons, elem_of_nil in Hin.
  simpl. rewrite !with_action_snoc, !length_app.
  destruct_or!; simplify_eq; repeat case_decide; try congruence;
    simpl in *; lia.
Qed.

(** X7.  After the records of a plan, the changes of action [Create] are
    as many as the create counter less the replace counter, those of action
    [Destroy] as many as the destroy counter less the replace counter, and
    those of action [Update], [Replace] and [Import] as many as their
    counter. *)
Theorem counters_count_changes (records : list (ResourceChange number)) pc :
  process_records empty_changes records = Returned pc →
  length (with_action "Create" (ResouceChangeBody pc))
  = CreateResourcesCount pc - ReplaceResourcesCount pc
  ∧ length (with_action "Destroy" (ResouceChangeBody pc))
    = DestroyResourcesCount pc - ReplaceResourcesCount pc
  ∧ length (with_action "Update" (ResouceChangeBody pc))
    = UpdateResourcesCount pc
  ∧ length (with_action "Replace" (ResouceChangeBody pc))
    = ReplaceResourcesCount pc
  ∧ length (with_action "Import" (ResouceChangeBody pc))
    = ImportResourcesCount pc.
Proof.
  intros Hpc. apply process_records_by_action in Hpc; [lia|done].
Qed.

(** X8.  After the records of a plan, each of the five conditions under
    which the comment body includes the content of a category (lines
    318-322) holds exactly when the plan has a change of that category: no
    content without a diff is included, and no diff is left out. *)
Theorem section_condition_iff_changes
    (records : list (ResourceChange number)) pc :
  process_records empty_changes records = Returned pc →
  (ReplaceResourcesCount pc < CreateResourcesCount pc
     ↔ with_action "Create" (ResouceChangeBody pc) ≠ [])
  ∧ (ReplaceResourcesCount pc < DestroyResourcesCount pc
     ↔ with_action "Destroy" (ResouceChangeBody pc) ≠ [])
  ∧ (0 < UpdateResourcesCount pc
     ↔ with_action "Update" (ResouceChangeBody pc) ≠ [])
  ∧ (0 < ReplaceResourcesCount pc
     ↔ with_action "Replace" (ResouceChangeBody pc) ≠ [])
  ∧ (0 < ImportResourcesCount pc
     ↔ with_action "Import" (ResouceChangeBody pc) ≠ []).
Proof.
  intros Hpc. apply process_records_by_action in Hpc; [|done].
  destruct Hpc as (Hc & Hd & Hu & Hr & Hi).
  assert (∀ l : list ResourceChangeBody, l ≠ [] ↔ 0 < length l) as Hne.
  { intros []; simpl; split; try done; lia. }
  rewrite !Hne. lia.
Qed.

Lemma process_records_changes pc rcs pc' :
  process_records pc rcs = Returned pc' →
  ∃ added,
    ResouceChangeBody pc' = ResouceChangeBody pc ++ added
    ∧ (Address <$> added) `sublist_of` (address <$> rcs)
    ∧ Forall (λ body, Action body ∈ categories.*1) added.
Proof.
  revert pc. induction rcs as [|rc rcs IH]; intros pc.
  { intros [= <-]. exists []. by rewrite app_nil_r. }
  unfold process_records in *. simpl.
  destruct (process_record pc rc) as [e|pc1] eqn:Hstep; [done|]. simpl.
  intros (added & Heq & Hsub & Hact)%IH.
  apply process_record_cases in Hstep
    as [->|(body & action & c & u & d & r & i & -> & Haddr & Haction & Hin)].
  - exists added. split_and!; [done| |done]. by apply sublist_cons.
  - exists (body :: added). simpl in Heq. split_and!.
    + by rewrite Heq, <- app_assoc.
    + simpl. rewrite Haddr. by apply sublist_skip.
    + constructor; [|done]. rewrite Haction. clear -Hin.
      unfold categories in *. rewrite !elem_of_cons, elem_of_nil in Hin.
      simpl. rewrite !elem_of_cons. destruct_or!; simplify_eq; tauto.
Qed.

(** X9.  The changes of a plan come in the order of its records, at most
    one for a record and under the address of the record, and each has one
    of the actions [Import], [Create], [Replace], [Destroy], [Update]. *)
Theorem changes_follow_records (records : list (ResourceChange number)) pc :
  process_records empty_changes records = Returned pc →
  (Address <$> ResouceChangeBody pc) `sublist_of` (address <$> records)
  ∧ Forall (λ body, Action body
                    ∈ ["Import"; "Create"; "Replace"; "Destroy"; "Update"])
      (ResouceChangeBody pc).
Proof.
  intros (added & Heq & Hsub & Hact)%process_records_changes.
  simpl in Heq. by rewrite Heq.
Qed.

(** X10.  The first verb decides: ["create"] gives a [Create], ["update"]
    an [Update], ["delete"] a [Replace] when ["create"] is among the verbs
    and a [Destroy] when it is not.  Each adds one change, under the address
    of the record and with the rendered diff of its redacted values, and
    increments the counters of its category: create; update; create, destroy
    and replace; destroy. *)
Theorem first_verb_decides pc rc details acts :
  change rc = Some details → actions details = Some acts →
  let body action :=
    {| Address := address rc;
       ChangeDif := render_change (address rc) (redact details).1
                      (redact details).2 action;
       Action := action |} in
  (head acts = Some "create" →
     ∃ pc', process_record pc rc = Returned pc'
            ∧ recorded pc pc' (body "Create") 1 0 0 0 0)
  ∧ (head acts = Some "update" →
     ∃ pc', process_record pc rc = Returned pc'
            ∧ recorded pc pc' (body "Update") 0 1 0 0 0)
  ∧ (head acts = Some "delete" → "create" ∈ acts →
     ∃ pc', process_record pc rc = Returned pc'
            ∧ recorded pc pc' (body "Replace") 1 0 1 1 0)
  ∧ (head acts = Some "delete" → "create" ∉ acts →
     ∃ pc', process_record pc rc = Returned pc'
            ∧ recorded pc pc' (body "Destroy") 0 0 1 0 0).
Proof.
  intros Hc Ha body. rewrite (process_record_unfold _ _ _ _ Hc Ha).
  unfold resolve_action.
  assert (head acts = Some "delete" → "delete" ∈ acts) as Hd.
  { destruct acts; intros ?; simplify_eq/=. by left. }
  split_and!.
  - intros ->. simpl. eexists. split; [done|]. by repeat split.
  - intros ->. simpl. eexists. split; [done|]. by repeat split.
  - intros Hh Hin. rewrite Hh. simpl.
    rewrite (bool_decide_eq_true_2 _ (Hd Hh)), (bool_decide_eq_true_2 _ Hin).
    simpl. eexists. split; [done|]. by repeat split.
  - intros Hh Hnin. rewrite Hh. simpl.
    rewrite (bool_decide_eq_true_2 _ (Hd Hh)), (bool_decide_eq_false_2 _ Hnin).
    simpl. eexists. split; [done|]. by repeat split.
Qed.

(** X11.  A plan without [resource_changes], or with a record that has no
    [change] or no [actions] after records that have both, is reported as
    invalid, whatever its other records are, and no comment is built for
    it. *)
Theorem malformed_plan_is_invalid inputs plan :
  (resource_changes plan = None →
     process_plan inputs plan = PlanFailed (InvalidPlan (tfPlan plan) NotIterable))
  ∧ ∀ good rc rest,
      resource_changes plan = Some (good ++ rc :: rest) →
      Forall (λ rc', ∃ details acts,
                change rc' = Some details ∧ actions details = Some acts) good →
      (change rc = None →
         process_plan inputs plan
         = PlanFailed (InvalidPlan (tfPlan plan) (CannotReadProperty "actions")))
      ∧ (∀ details, change rc = Some details → actions details = None →
           process_plan inputs plan
           = PlanFailed (InvalidPlan (tfPlan plan) (CannotReadProperty "0"))).
Proof.
  split.
  { intros Hnone. unfold process_plan, process_changes. by rewrite Hnone. }
  intros good rc rest Hsome Hgood.
  destruct (process_records_total empty_changes good Hgood) as [pc Hpc].
  unfold process_plan, process_changes. rewrite Hsome.
  rewrite process_records_app, Hpc. simpl. unfold process_records. simpl.
  unfold process_record. split.
  - by intros ->.
  - intros details -> Hnone. simpl. by rewrite Hnone.
Qed.

End ClassifierMore.

(** ** Substrings *)

Lemma includes_prefix t r : includes (t +:+ r) t = true.
Proof. destruct (t +:+ r) eqn:E; simpl; rewrite <- E, strip_prefix_app; done. Qed.

Lemma includes_cons c s t : includes s t = true → includes (String c s) t = true.
Proof. intros H. simpl. by destruct (strip_prefix t (String c s)). Qed.

Lemma includes_app a t b : includes (a +:+ t +:+ b) t = true.
Proof.
  induction a as [|c a IH]; simpl.
  - apply includes_prefix.
  - change (includes (String c (a +:+ t +:+ b)) t = true).
    by apply includes_cons.
Qed.

(** [s.includes(t)] holds exactly when [t] occurs in [s]. *)
Lemma includes_spec s t :
  includes s t = true ↔ ∃ a b, s = a +:+ t +:+ b.
Proof.
  split; [|intros (a & b & ->); apply includes_app].
  induction s as [|c s IH]; simpl.
  - destruct (strip_prefix t "") as [r|] eqn:E; [|done].
    intros _. exists "", r. by apply strip_prefix_Some in E.
  - destruct (strip_prefix t (String c s)) as [r|] eqn:E.
    + intros _. exists "", r. by apply strip_prefix_Some in E.
    + intros (a & b & ->)%IH. by exists (String c a), b.
Qed.

Lemma includes_within a s b t :
  includes s t = true → includes (a +:+ s +:+ b) t = true.
Proof.
  rewrite !includes_spec. intros (a' & b' & ->).
  exists (a +:+ a'), (b' +:+ b). by rewrite !append_assoc.
Qed.

Lemma includes_app_l a s t :
  includes s t = true → includes (a +:+ s) t = true.
Proof.
  intros H. apply (includes_within a _ "") in H. by rewrite append_empty_r in H.
Qed.

Lemma includes_app_r s b t :
  includes s t = true → includes (s +:+ b) t = true.
Proof. apply (includes_within ""). Qed.

Lemma unlines_app (l1 l2 : list string) :
  unlines (l1 ++ l2) = unlines l1 +:+ unlines l2.
Proof.
  unfold unlines. induction l1 as [|l l1 IH]; [done|].
  cbn [app foldr]. by rewrite IH, append_assoc.
Qed.

(** ** More on the comment body and the run *)

Section ReportMore.
Context {number : Type} `{!EqDecision number} `{!Externals number}.
Implicit Types (planChanges pc : PlanChanges) (inputs : Inputs).
Implicit Types (plan : Plan number) (bodies : list ResourceChangeBody).

(** The content of a category: its title, then the blocks of its changes. *)
Lemma section_content_blocks title action bodies :
  section_content title action bodies
  = (nl +:+ "#### Resources to " +:+ title +:+ ":" +:+ nl +:+ nl)
      +:+ unlines (diff_block <$> with_action action bodies).
Proof.
  unfold section_content.
  generalize (nl +:+ "#### Resources to " +:+ title +:+ ":" +:+ nl +:+ nl).
  induction bodies as [|body bodies IH] using rev_ind; intros init.
  - cbn. by rewrite append_empty_r.
  - rewrite foldl_app, IH, with_action_snoc. cbn [foldl].
    destruct (String.eqb_spec (Action body) action) as [Heq|Hne].
    + rewrite decide_True by done. rewrite fmap_app, unlines_app.
      cbn [fmap list_fmap unlines foldr]. rewrite append_empty_r.
      by rewrite append_assoc.
    + rewrite decide_False by done. by rewrite app_nil_r.
Qed.

(** X12.  The content of a category is its title followed by the fenced
    diffs of the changes of that category, in the order of the plan, and
    of no other change. *)
Theorem section_content_lists_category title action bodies :
  section_content title action bodies
  = (nl +:+ "#### Resources to " +:+ title +:+ ":" +:+ nl +:+ nl)
      +:+ unlines ((λ body, nl +:+ "```diff" +:+ ChangeDif body +:+ "```"
                             +:+ nl +:+ nl)
                     <$> filter (λ body, Action body = action) bodies).
Proof. apply section_content_blocks. Qed.

Lemma includes_unlines blocks block :
  block ∈ blocks → includes (unlines blocks) block = true.
Proof.
  induction 1 as [block blocks|block b blocks _ IH]; cbn [unlines foldr].
  - apply includes_prefix.
  - by apply includes_app_l.
Qed.

Lemma includes_sections (sections : list string) content block :
  content ∈ sections → includes content block = true →
  includes (foldr (λ content rest, content +:+ nl +:+ rest) "" sections) block
  = true.
Proof.
  intros Hin Hblock.
  induction Hin as [content sections|content c sections _ IH]; cbn [foldr].
  - by apply includes_app_r.
  - do 2 apply includes_app_l. by apply IH.
Qed.

(** Every change of a plan is in a content that the comment body takes. *)
Lemma change_in_emitted_sections
    (records : list (ResourceChange number)) pc body :
  process_records empty_changes records = Returned pc →
  body ∈ ResouceChangeBody pc →
  ∃ content, content ∈ emitted_sections pc
             ∧ includes content (diff_block body) = true.
Proof.
  intros Hpc Hbody.
  pose proof (process_records_changes _ _ _ Hpc) as (added & Heq & _ & Hact).
  simpl in Heq. rewrite <- Heq in Hact.
  rewrite Forall_forall in Hact. specialize (Hact body Hbody).
  apply process_records_by_action in Hpc; [|done].
  destruct Hpc as (Hc & Hd & Hu & Hr & Hi).
  assert (∀ action, Action body = action →
            with_action action (ResouceChangeBody pc) ≠ []
            ∧ ∀ title, includes (section_content title action
                                   (ResouceChangeBody pc))
                         (diff_block body) = true) as Hmine.
  { intros action Haction.
    assert (body ∈ with_action action (ResouceChangeBody pc)) as Hin.
    { unfold with_action. by apply list_elem_of_filter. }
    split; [by intros Hnil; rewrite Hnil in Hin; apply elem_of_nil in Hin|].
    intros title. rewrite section_content_blocks.
    apply includes_app_l, includes_unlines.
    by apply list_elem_of_fmap_2. }
  assert (∀ l : list ResourceChangeBody, l ≠ [] → 0 < length l) as Hlen.
  { intros []; simpl; [done|lia]. }
  unfold emitted_sections, resourcesToCreateContent, resourcesToDestroyContent,
    resourcesToUpdateContent, resourcesToReplaceContent,
    resourcesToImportContent.
  unfold categories in Hact. simpl in Hact.
  rewrite !elem_of_cons, elem_of_nil in Hact.
  destruct Hact as [Ha|[Ha|[Ha|[Ha|[Ha|[]]]]]];
    destruct (Hmine _ Ha) as [Hne%Hlen Hin]; eexists;
    (split; [|apply Hin]); rewrite !elem_of_cons.
  - do 4 right. left. by rewrite bool_decide_eq_true_2 by lia.
  - left. by rewrite bool_decide_eq_true_2 by lia.
  - do 3 right. left. by rewrite bool_decide_eq_true_2 by lia.
  - right. left. by rewrite bool_decide_eq_true_2 by lia.
  - do 2 right. left. by rewrite bool_decide_eq_true_2 by lia.
Qed.

(** X13.  The comment body of a plan contains the fenced diff of every
    change of the plan: the conditions on the counters leave none out. *)
Theorem every_change_is_reported
    (records : list (ResourceChange number)) pc body expand header :
  process_records empty_changes records = Returned pc →
  body ∈ ResouceChangeBody pc →
  includes (commentBody expand header pc)
    (nl +:+ "```diff" +:+ ChangeDif body +:+ "```" +:+ nl +:+ nl) = true.
Proof.
  intros Hpc Hbody.
  destruct (change_in_emitted_sections _ _ _ Hpc Hbody)
    as (content & Hin & Hblock).
  pose proof (includes_sections _ _ _ Hin Hblock) as Hsections.
  unfold commentBody.
  repeat first [ apply includes_app_r; exact Hsections | apply includes_app_l ].
Qed.

End ReportMore.

(** ** The run as a whole *)

Section RunMore.
Context {number : Type} `{!EqDecision number} `{!Externals number}.
Implicit Types (inputs : Inputs) (plan : Plan number).
Implicit Types (plans : list (Plan number)) (f : failure).

(** The loop over the plans collects the comment bodies of the plans, in
    order, as long as no plan fails. *)
Lemma collect_comments_inr inputs plans acc cs :
  collect_comments inputs plans acc = inr cs ↔
  Forall (λ plan, ∀ f, process_plan inputs plan ≠ PlanFailed f) plans
  ∧ cs = acc ++ omap (plan_comment inputs) plans.
Proof.
  revert acc. induction plans as [|plan plans IH]; intros acc; simpl.
  { rewrite app_nil_r. split; [by intros [= ->]|by intros [_ ->]]. }
  unfold plan_comment at 1.
  destruct (process_plan inputs plan) as [f| |body] eqn:Hplan; simpl.
  - split; [done|]. intros [Hall _]. inversion Hall as [|?? Hno _]; subst.
    by destruct (Hno f).
  - rewrite IH. split; intros [Hall ->]; (split; [|done]).
    + constructor; [congruence|done].
    + by inversion Hall.
  - rewrite IH, <- app_assoc. split; intros [Hall ->]; (split; [|done]).
    + constructor; [congruence|done].
    + by inversion Hall.
Qed.

(** It stops at the first plan that fails. *)
Lemma collect_comments_inl inputs plans acc f :
  collect_comments inputs plans acc = inl f →
  ∃ earlier plan later,
    plans = earlier ++ plan :: later
    ∧ process_plan inputs plan = PlanFailed f
    ∧ Forall (λ plan', ∀ f', process_plan inputs plan' ≠ PlanFailed f') earlier.
Proof.
  revert acc. induction plans as [|plan plans IH]; intros acc; simpl; [done|].
  destruct (process_plan inputs plan) as [f'| |body] eqn:Hplan.
  - intros [= ->]. by exists [], plan, plans.
  - intros (earlier & p & later & -> & Hp & Hall)%IH.
    exists (plan :: earlier), p, later. split_and!; [done..|].
    constructor; [congruence|done].
  - intros (earlier & p & later & -> & Hp & Hall)%IH.
    exists (plan :: earlier), p, later. split_and!; [done..|].
    constructor; [congruence|done].
Qed.

(** The loop over the comments when no [createComment] rejects. *)
Lemma post_comments_steady gh n (planComments : list string) :
  (∀ m, create_rejects gh m = None) →
  post_comments gh n planComments = (None, CreatePRComment <$> planComments).
Proof.
  intros Hok. revert n.
  induction planComments as [|c cs IH]; intros n; simpl; [done|].
  by rewrite Hok, IH.
Qed.

(** The loop calls [createComment] with the comments in order, up to the
    first call that rejects. *)
Lemma post_comments_cases gh n (planComments : list string) :
  (post_comments gh n planComments = (None, CreatePRComment <$> planComments)
   ∧ ∀ i, i < length planComments → create_rejects gh (n + i) = None)
  ∨ ∃ i message,
      i < length planComments
      ∧ create_rejects gh (n + i) = Some message
      ∧ (∀ j, j < i → create_rejects gh (n + j) = None)
      ∧ post_comments gh n planComments
        = (Some (Message message),
           CreatePRComment <$> take (S i) planComments).
Proof.
  revert n. induction planComments as [|c cs IH]; intros n.
  { left. split; [done|]. simpl. lia. }
  cbn [post_comments].
  destruct (create_rejects gh n) as [message|] eqn:Hn.
  { right. exists 0, message. rewrite Nat.add_0_r. simpl.
    split_and!; [lia|done|lia|by destruct cs]. }
  destruct (IH (S n)) as [[-> Hall]|(i & message & Hlt & Hi & Hbefore & ->)].
  - left. split; [done|]. intros [|i] Hlt.
    + by rewrite Nat.add_0_r.
    + rewrite Nat.add_succ_r. apply Hall. simpl in Hlt. lia.
  - right. exists (S i), message. rewrite Nat.add_succ_r. simpl.
    split_and!; [lia|done| |done].
    intros [|j] Hj; [by rewrite Nat.add_0_r|].
    rewrite Nat.add_succ_r. apply Hbefore. lia.
Qed.

Lemma post_comments_posted gh n (planComments : list string) body :
  CreatePRComment body ∈ (post_comments gh n planComments).2 →
  body ∈ planComments.
Proof.
  destruct (post_comments_cases gh n planComments)
    as [[-> _]|(i & message & _ & _ & _ & ->)]; simpl.
  - by intros (b & [= ->] & Hb)%list_elem_of_fmap.
  - intros (b & [= ->] & Hb)%list_elem_of_fmap.
    rewrite <- (take_drop (S i) planComments). apply elem_of_app. by left.
Qed.

(** The run when no plan fails. *)
Lemma run_unfold gh inputs plans :
  Forall (λ plan, ∀ f, process_plan inputs plan ≠ PlanFailed f) plans →
  run gh inputs plans
  = match omap (plan_comment inputs) plans with
    | [] => (None, [])
    | planComments =>
        match query_rejects gh with
        | Some message =>
            (Some (Message message),
             [RemoveCommentsByLookupText COMMENT_FOOTER])
        | None =>
            let '(f, effects) := post_comments gh 0 planComments in
            (f, RemoveCommentsByLookupText COMMENT_FOOTER :: effects)
        end
    end.
Proof.
  intros Hall. unfold run.
  destruct (collect_comments inputs plans []) as [f|cs] eqn:Hcs.
  - apply collect_comments_inl in Hcs
      as (earlier & plan & later & -> & Hplan & _).
    apply Forall_app in Hall as [_ Hall]. inversion Hall as [|?? Hno _]; subst.
    by destruct (Hno f).
  - apply collect_comments_inr in Hcs as [_ ->]. simpl.
    by destruct (omap _ _).
Qed.

(** X14.  When no plan fails and no call to GitHub rejects, the run asks
    once for the removal of the comments that carry the footer and then
    posts the comment body of every plan that has one, in the order of the
    plans; when no plan has one it makes no call at all, whatever GitHub
    would answer. *)
Theorem run_posts_in_order gh inputs plans :
  Forall (λ plan, ∀ f, process_plan inputs plan ≠ PlanFailed f) plans →
  (omap (plan_comment inputs) plans = [] → run gh inputs plans = (None, []))
  ∧ (query_rejects gh = None → (∀ n, create_rejects gh n = None) →
     run gh inputs plans
     = (None,
        match omap (plan_comment inputs) plans with
        | [] => []
        | planComments =>
            RemoveCommentsByLookupText COMMENT_FOOTER
              :: (CreatePRComment <$> planComments)
        end)).
Proof.
  intros Hall. rewrite (run_unfold gh _ _ Hall). split.
  - by intros ->.
  - intros -> Hok. destruct (omap _ _) as [|c cs]; [done|].
    by rewrite post_comments_steady.
Qed.


Lemma posted_comment gh inputs plans body :
  CreatePRComment body ∈ (run gh inputs plans).2 →
  ∃ plan, plan ∈ plans ∧ process_plan inputs plan = PlanComment body.
Proof.
  unfold run.
  destruct (collect_comments inputs plans []) as [f|cs] eqn:Hcs; simpl.
  { by intros ?%elem_of_nil. }
  apply collect_comments_inr in Hcs as [_ ->]. simpl.
  assert (body ∈ omap (plan_comment inputs) plans →
          ∃ plan, plan ∈ plans ∧ process_plan inputs plan = PlanComment body)
    as Hbody.
  { intros (plan & Hin & Hc)%list_elem_of_omap. exists plan. split; [done|].
    unfold plan_comment in Hc.
    destruct (process_plan inputs plan); by simplify_eq. }
  destruct (omap (plan_comment inputs) plans) as [|c cs]; cbn -[post_comments].
  { by intros ?%elem_of_nil. }
  destruct (query_rejects gh) as [message|]; cbn -[post_comments].
  { rewrite elem_of_cons. by intros [?|?%elem_of_nil]. }
  destruct (post_comments gh 0 (c :: cs)) as [f effects] eqn:Hpost.
  cbn -[post_comments]. rewrite elem_of_cons. intros [?|Hin]; [done|].
  apply Hbody, (post_comments_posted gh 0). by rewrite Hpost.
Qed.

(** X16.  No comment body that the run posts is longer than 65536. *)
Theorem posted_within_limit gh inputs plans body :
  CreatePRComment body ∈ (run gh inputs plans).2 →
  (N.of_nat (String.length body) ≤ 65536)%N.
Proof.
  intros (plan & _ & Hplan)%posted_comment. unfold process_plan in Hplan.
  destruct (process_changes plan) as [e|pc]; [done|].
  case_bool_decide; [done|]. case_bool_decide as Hsize; [done|].
  injection Hplan as <-. unfold MAX_GITHUB_COMMENT_BODY_SIZE in Hsize. lia.
Qed.

Lemma commentBody_footer expand header pc :
  includes (commentBody expand header pc) COMMENT_FOOTER = true.
Proof.
  unfold commentBody.
  repeat first [ apply includes_prefix | apply includes_app_l ].
Qed.

Lemma query_is_filter (nodes : list PullRequest.IssueComment) lookupText :
  PullRequest.QueryCommentsByLookupText nodes lookupText
  = filter (λ comment, includes (PullRequest.body comment) lookupText = true)
      nodes.
Proof.
  unfold PullRequest.QueryCommentsByLookupText.
  case_bool_decide as Hlen; [|done]. by destruct (filter _ nodes).
Qed.

(** X17.  A comment that carries the body of a comment posted by a run is
    among the comments the clean-up of the next run asks to delete: every
    posted body contains the footer the clean-up looks for. *)
Theorem posted_comment_is_cleaned_up gh inputs plans body
    (nodes : list PullRequest.IssueComment) comment :
  CreatePRComment body ∈ (run gh inputs plans).2 →
  comment ∈ nodes → PullRequest.body comment = body →
  PullRequest.id comment
  ∈ PullRequest.RemoveCommentsByLookupText nodes COMMENT_FOOTER.
Proof.
  intros (plan & _ & Hplan)%posted_comment Hin Hbody.
  unfold PullRequest.RemoveCommentsByLookupText. rewrite query_is_filter.
  apply list_elem_of_fmap_2, list_elem_of_filter. split; [|done].
  rewrite Hbody. unfold process_plan in Hplan.
  destruct (process_changes plan) as [e|pc]; [done|].
  repeat case_bool_decide; try done. injection Hplan as <-.
  apply commentBody_footer.
Qed.

End RunMore.

(** ** The clean-up of the pull request *)

(** X18.  The comments the clean-up selects are the comments whose body
    contains the lookup text, in the order of the query, and their ids are
    what it asks to delete. *)
Theorem cleanup_selects_marked (nodes : list PullRequest.IssueComment)
    lookupText :
  PullRequest.QueryCommentsByLookupText nodes lookupText `sublist_of` nodes
  ∧ (∀ comment,
       comment ∈ PullRequest.QueryCommentsByLookupText nodes lookupText
       ↔ comment ∈ nodes
         ∧ ∃ a b, PullRequest.body comment = a +:+ lookupText +:+ b)
  ∧ PullRequest.RemoveCommentsByLookupText nodes lookupText
    = PullRequest.id
        <$> PullRequest.QueryCommentsByLookupText nodes lookupText.
Proof.
  rewrite query_is_filter. split_and!.
  - apply sublist_filter.
  - intros comment. rewrite list_elem_of_filter, includes_spec. tauto.
  - unfold PullRequest.RemoveCommentsByLookupText. by rewrite query_is_filter.
Qed.

(** X19.  With the empty lookup text the clean-up asks for the deletion
    of every comment of the query. *)
Theorem empty_lookup_text_selects_all (nodes : list PullRequest.IssueComment) :
  PullRequest.RemoveCommentsByLookupText nodes ""
  = PullRequest.id <$> nodes.
Proof.
  unfold PullRequest.RemoveCommentsByLookupText. rewrite query_is_filter.
  f_equal. induction nodes as [|c nodes IH]; [done|].
  rewrite filter_cons. rewrite decide_True; [by rewrite IH|].
  by destruct (PullRequest.body c).
Qed.

(** ** The search for the plan files *)

(** X20.  [findTFPlans] returns, and the paths it returns are those of the
    regular files named [planName] that lie in the lookup directory or at
    most [maxDepth] directories below it; a directory of that name is not
    among them. *)
Theorem findTFPlans_finds path_join lookupDir planName maxDepth root :
  ∃ foundPaths,
    findTFPlans path_join lookupDir planName maxDepth root = Some foundPaths
    ∧ ∀ p, p ∈ foundPaths ↔
        ∃ names sub,
          length names ≤ maxDepth ∧ descend names root sub
          ∧ (planName, RegularFile) ∈ sub
          ∧ p = path_join (join_all path_join lookupDir names) planName.
Proof.
  eexists. split; [apply findTFPlans_levels|]. intros p.
  rewrite elem_of_plans_within. split.
  - intros (d & names & sub & ->%list_elem_of_singleton & Hlen & Hdesc & Hin & ->).
    exists names, sub. simpl in *. split_and!; try done. lia.
  - intros (names & sub & Hlen & Hdesc & Hin & ->).
    eexists _, names, sub. split_and!; [by apply list_elem_of_singleton| |done..].
    lia.
Qed.

(** X21.  The paths come level by level, the files of the lookup
    directory first: a search with a greater [maxDepth] returns the paths
    of the search with the smaller one, in the same order, followed by the
    paths of the deeper files. *)
Theorem findTFPlans_deeper path_join lookupDir planName maxDepth root :
  ∃ foundPaths deeper,
    findTFPlans path_join lookupDir planName maxDepth root = Some foundPaths
    ∧ findTFPlans path_join lookupDir planName (S maxDepth) root
      = Some (foundPaths ++ deeper).
Proof.
  rewrite !findTFPlans_levels.
  destruct (plans_within_prefix path_join (S maxDepth) planName
              [{| dir := lookupDir; depth := 0; listing := root |}])
    as [deeper Hdeeper].
  eexists _, deeper. split; [done|]. by rewrite Hdeeper.
Qed.

(** ** The clean-up of the diff, as a filter *)

(** X22.  On a patch without carriage return, none of whose additions and
    deletions begins with [+{}] or [-{}] and goes on, the three replacements
    are the filter that keeps the additions and deletions other than [+{}]
    and [-{}]: every line kept is left as it is, with its line feed, and in
    its place. *)
Theorem cleanup_is_a_filter changeDiff :
  no_cr changeDiff →
  (∀ l, l ∈ lines changeDiff → kept_line l = true →
     strip_prefix "+{}" l = None ∧ strip_prefix "-{}" l = None) →
  sanitize_diff changeDiff
  = unlines (filter (λ l, kept_line l = true) (lines changeDiff)).
Proof. apply sanitize_diff_filter. Qed.

(** ** The clean-up of a cleaned diff *)

Lemma lines_line b rest :
  single_line b → lines (b +:+ String LF rest) = (b +:+ nl) :: lines rest.
Proof.
  induction b as [|c b IH]; [done|]. intros (Hc & _ & Hb).
  change (lines (String c b +:+ String LF rest))
    with (if is_lf c then nl :: lines (b +:+ String LF rest)
          else match lines (b +:+ String LF rest) with
               | [] => [String c ""]
               | l :: ls => String c l :: ls
               end).
  by rewrite Hc, IH.
Qed.

Lemma lines_last b : single_line b → lines b = if decide (b = "") then [] else [b].
Proof.
  induction b as [|c b IH]; [done|]. intros (Hc & _ & Hb).
  rewrite decide_False by done. simpl. rewrite Hc, (IH Hb).
  by case_decide; subst.
Qed.

(** The lines of a list of lines put together are the lines of the list. *)
Lemma lines_unlines ls :
  line_list ls → lines (unlines ls) = filter (λ l, l ≠ "") ls.
Proof.
  induction 1 as [|ls _ IH|b ls Hb _ IH|b Hb]; cbn [unlines foldr].
  - done.
  - rewrite filter_cons, decide_False by (by intros []). exact IH.
  - rewrite append_assoc.
    change (nl +:+ foldr String.append "" ls)
      with (String LF (unlines ls)).
    rewrite lines_line, IH by done.
    rewrite filter_cons, decide_True; [done|]. by destruct b.
  - rewrite append_empty_r, lines_last, filter_cons, filter_nil by done.
    by repeat case_decide.
Qed.

Lemma no_cr_app a b : no_cr a → no_cr b → no_cr (a +:+ b).
Proof. induction a as [|c a IH]; simpl; [done|]. intros [? ?] ?. auto. Qed.

Lemma single_line_no_cr b : single_line b → no_cr b.
Proof. induction b as [|c b IH]; simpl; [done|]. intros (_ & ? & ?). auto. Qed.

(** Lines without carriage return make a text without carriage return. *)
Lemma line_list_no_cr ls : line_list ls → no_cr (unlines ls).
Proof.
  induction 1 as [|ls _ IH|b ls Hb _ IH|b Hb]; cbn [unlines foldr].
  - done.
  - exact IH.
  - apply no_cr_app; [|exact IH]. apply no_cr_app; [|done].
    by apply single_line_no_cr.
  - apply no_cr_app; [|done]. by apply single_line_no_cr.
Qed.

Lemma clean_lines_line_list changeDiff :
  no_cr changeDiff → line_list (clean_line <$> lines changeDiff).
Proof.
  intros Hcr.
  assert (clean_line <$> lines changeDiff
          = strip_line "+"
              <$> (strip_line "-" <$> (keep_change <$> lines changeDiff)))
    as -> by (by rewrite <- !list_fmap_compose).
  do 2 (apply strip_line_line_list; [done..|]).
  by apply keep_change_line_list, lines_line_list.
Qed.

(** X23.  On a patch without carriage return, none of whose additions and
    deletions begins with [+{}] or [-{}] and goes on, the clean-up of the
    cleaned patch is the cleaned patch. *)
Theorem cleanup_idempotent changeDiff :
  no_cr changeDiff →
  (∀ l, l ∈ lines changeDiff → kept_line l = true →
     strip_prefix "+{}" l = None ∧ strip_prefix "-{}" l = None) →
  sanitize_diff (sanitize_diff changeDiff) = sanitize_diff changeDiff.
Proof.
  intros Hcr Hplain.
  assert (∀ l, l ∈ lines changeDiff →
            clean_line l = "" ∨ clean_line (clean_line l) = clean_line l)
    as Hclean.
  { intros l Hl.
    destruct (proj2 (rendered_diff_lines_aux changeDiff Hcr) l Hl)
      as (H1 & H2 & H3).
    specialize (Hplain l Hl). unfold kept_line in Hplain.
    destruct (change_line l) eqn:Hc; [|by left; apply H1].
    destruct (String.eqb_spec (line_content l) "+{}") as [E|_];
      [by left; apply H2; left|].
    destruct (String.eqb_spec (line_content l) "-{}") as [E|_];
      [by left; apply H2; right|].
    destruct Hplain as [Hp Hm]; [done|]. right. by rewrite !H3. }
  pose proof (clean_lines_line_list changeDiff Hcr) as Hlist.
  rewrite (sanitize_diff_lines changeDiff Hcr).
  rewrite sanitize_diff_lines by by apply line_list_no_cr.
  rewrite lines_unlines by done. clear Hlist.
  clear Hplain. induction (lines changeDiff) as [|l ls IH]; [done|].
  rewrite fmap_cons, filter_cons.
  assert (unlines (clean_line <$> filter (λ l0, l0 ≠ "") (clean_line <$> ls))
          = unlines (clean_line <$> ls)) as IH'.
  { apply IH. intros l' Hl'. apply Hclean. by right. }
  destruct (Hclean l) as [Hempty|Hsame]; [by left| |].
  - rewrite Hempty, decide_False by (by intros []). by rewrite IH'.
  - case_decide as Hne.
    + rewrite fmap_cons. cbn [unlines foldr]. rewrite Hsame. f_equal. exact IH'.
    + rewrite Hne. cbn [unlines foldr]. exact IH'.
Qed.

(** ** The further properties on concrete plans *)

Lemma unmarked_attributes_untouched_witness :
  (redact tags_unchanged).1 !! "ami" = Some (VStr "ami-1")
  ∧ (redact tags_unchanged).2 !! "ami" = Some (VStr "ami-2").
Proof.
  assert (¬ marked "ami" tags_unchanged) as Hk.
  { intros [[v H]|[v H]]; vm_compute in H; discriminate. }
  destruct (unmarked_attributes_untouched tags_unchanged "ami" Hk) as [-> ->].
  split; vm_compute; reflexivity.
Defined.

Lemma marked_value_never_survives_witness :
  ∃ v w,
    (redact tags_unchanged).1 !! "tags" = Some v
    ∧ (redact tags_unchanged).2 !! "tags" = Some w
    ∧ v = VStr OLD_SENSITIVE_VALUE ∧ w = VStr NEW_SENSITIVE_VALUE.
Proof.
  assert (marked "tags" tags_unchanged) as Hk.
  { left. vm_compute. eauto. }
  destruct ((redact tags_unchanged).1 !! "tags") as [v|] eqn:Hv;
    [|vm_compute in Hv; discriminate].
  destruct ((redact tags_unchanged).2 !! "tags") as [w|] eqn:Hw;
    [|vm_compute in Hw; discriminate].
  exists v, w. split_and!; [done|done| |].
  - exact (proj1 (marked_value_never_survives tags_unchanged "tags" v Hk) Hv).
  - exact (proj2 (marked_value_never_survives tags_unchanged "tags" w Hk) Hw).
Defined.

Lemma redact_is_one_pass_witness :
  redact password_rotated
  = redact_keys ["token"; "password"; "token"]
      (or_empty (before password_rotated), or_empty (after password_rotated)).
Proof.
  apply redact_is_one_pass. intros k. unfold marked.
  rewrite !elem_of_cons, elem_of_nil. split.
  - intros [->|[->|[->|[]]]]; left; vm_compute; eauto.
  - destruct (decide (k = "token")) as [->|Ht]; [auto|].
    destruct (decide (k = "password")) as [->|Hp]; [auto|].
    intros [[v H]|[v H]]; exfalso; simpl in H;
      rewrite lookup_insert_ne, lookup_singleton_ne in H by done;
      discriminate.
Defined.

Lemma unchanged_primitive_removed_witness :
  (redact password_rotated).1 !! "token" = None
  ∧ (redact password_rotated).2 !! "token" = None.
Proof.
  apply unchanged_primitive_removed.
  - left. vm_compute. eauto.
  - vm_compute. reflexivity.
  - intros v H. vm_compute in H. by injection H as <-.
Defined.

Lemma redact_adds_inherited_names_only_witness :
  (redact constructor_added).1 !! "constructor"
  = Some (VStr OLD_SENSITIVE_VALUE)
  ∧ (is_Some (or_empty (before constructor_added) !! "constructor")
     ∨ (marked "constructor" constructor_added
        ∧ "constructor" ∈ object_prototype
        ∧ "constructor" ≠ "__proto__"
        ∧ is_Some (or_empty (after constructor_added) !! "constructor"))).
Proof.
  assert ((redact constructor_added).1 !! "constructor"
          = Some (VStr OLD_SENSITIVE_VALUE)) as Hadded
    by (vm_compute; reflexivity).
  split; [exact Hadded|].
  apply (proj1 (redact_adds_inherited_names_only constructor_added
                  "constructor")).
  rewrite Hadded. eauto.
Defined.

Lemma changed_value_masked_witness :
  ((redact password_rotated).1 !! "password" = Some (VStr OLD_SENSITIVE_VALUE)
   ∧ (redact password_rotated).2 !! "password"
     = Some (VStr NEW_SENSITIVE_VALUE))
  ∧ (or_empty (before constructor_added) !! "constructor" = None
     ∧ (redact constructor_added).1 !! "constructor"
       = Some (VStr OLD_SENSITIVE_VALUE)
     ∧ (redact constructor_added).2 !! "constructor"
       = Some (VStr NEW_SENSITIVE_VALUE)).
Proof.
  split; [|split; [vm_compute; reflexivity|]].
  - apply (changed_value_masked password_rotated "password").
    + left. vm_compute. eauto.
    + intros H. vm_compute in H. discriminate.
  - apply (changed_value_masked constructor_added "constructor").
    + right. vm_compute. eauto.
    + intros H. vm_compute in H. discriminate.
Defined.

Lemma sample_changes_eq :
  process_records empty_changes sample_records = Returned sample_changes.
Proof. vm_compute. reflexivity. Defined.

Lemma counters_count_changes_witness :
  length (with_action "Create" (ResouceChangeBody sample_changes)) = 0
  ∧ length (with_action "Replace" (ResouceChangeBody sample_changes)) = 1
  ∧ CreateResourcesCount sample_changes = 1.
Proof.
  destruct (counters_count_changes sample_records sample_changes
              sample_changes_eq) as (Hc & _ & _ & Hr & _).
  rewrite Hc, Hr. vm_compute. auto.
Defined.

Lemma section_condition_iff_changes_witness :
  with_action "Update" (ResouceChangeBody sample_changes) ≠ []
  ∧ with_action "Create" (ResouceChangeBody sample_changes) = [].
Proof.
  destruct (section_condition_iff_changes sample_records sample_changes
              sample_changes_eq) as (Hc & _ & Hu & _).
  split.
  - apply Hu. vm_compute. lia.
  - destruct (with_action "Create" (ResouceChangeBody sample_changes))
      as [|b l] eqn:E; [done|].
    exfalso. assert (ReplaceResourcesCount sample_changes
                     < CreateResourcesCount sample_changes) as Hlt
      by (by apply Hc).
    vm_compute in Hlt. lia.
Defined.

Lemma changes_follow_records_witness :
  (Address <$> ResouceChangeBody sample_changes)
    `sublist_of` ["aws_s3_bucket.x"; "aws_instance.web"; "aws_vpc.main";
                  "aws_vpc.main"].
Proof.
  exact (proj1 (changes_follow_records sample_records sample_changes
                  sample_changes_eq)).
Defined.

Lemma first_verb_decides_witness :
  ∃ pc',
    process_record empty_changes destroy_then_create = Returned pc'
    ∧ CreateResourcesCount pc' = 1
    ∧ UpdateResourcesCount pc' = 0
    ∧ DestroyResourcesCount pc' = 1
    ∧ ReplaceResourcesCount pc' = 1
    ∧ ImportResourcesCount pc' = 0
    ∧ ResouceChangeBody pc'
      = [ {| Address := "aws_instance.web";
             ChangeDif := render_change "aws_instance.web"
                            {[ "ami" := VStr "ami-1" ]}
                            {[ "ami" := VStr "ami-2" ]} "Replace";
             Action := "Replace" |} ].
Proof.
  refine (proj1 (proj2 (proj2 (first_verb_decides empty_changes
                                 destroy_then_create _ _ eq_refl eq_refl)))
            eq_refl _).
  rewrite !elem_of_cons. auto.
Defined.

Lemma malformed_plan_is_invalid_witness :
  process_plan sample_inputs broken_plan
  = PlanFailed (InvalidPlan "tfplan.json" (CannotReadProperty "actions")).
Proof.
  refine (proj1 (proj2 (malformed_plan_is_invalid sample_inputs broken_plan)
                   [acl_update]
                   {| address := "aws_vpc.main"; change := None |} []
                   eq_refl _) eq_refl).
  constructor; [|constructor]. by eexists _, _.
Defined.

Lemma every_change_is_reported_witness :
  Forall (λ body,
            includes (commentBody true "plan" sample_changes)
              (nl +:+ "```diff" +:+ ChangeDif body +:+ "```" +:+ nl +:+ nl)
            = true)
    (ResouceChangeBody sample_changes).
Proof.
  apply Forall_forall. intros body Hbody.
  exact (every_change_is_reported sample_records sample_changes body true
           "plan" sample_changes_eq Hbody).
Defined.

Lemma sample_plans_do_not_fail :
  Forall (λ plan, ∀ f, process_plan sample_inputs plan ≠ PlanFailed f)
    [sample_plan [unchanged]; sample_plan [acl_update]].
Proof.
  repeat constructor; intros f H; vm_compute in H; discriminate.
Defined.

Lemma run_posts_in_order_witness :
  run steady sample_inputs [sample_plan [unchanged]; sample_plan [acl_update]]
  = (None, [RemoveCommentsByLookupText COMMENT_FOOTER;
            CreatePRComment sample_body]).
Proof.
  rewrite (proj2 (run_posts_in_order steady sample_inputs _
                    sample_plans_do_not_fail) eq_refl (λ n, eq_refl)).
  vm_compute. reflexivity.
Defined.


Lemma sample_body_posted :
  CreatePRComment sample_body
  ∈ (run steady sample_inputs
       [sample_plan [unchanged]; sample_plan [acl_update]]).2.
Proof.
  assert ((run steady sample_inputs
             [sample_plan [unchanged]; sample_plan [acl_update]]).2
          = [RemoveCommentsByLookupText COMMENT_FOOTER;
             CreatePRComment sample_body]) as ->
    by (vm_compute; reflexivity).
  rewrite !elem_of_cons. auto.
Defined.

Lemma posted_within_limit_witness :
  (N.of_nat (String.length sample_body) ≤ 65536)%N.
Proof. exact (posted_within_limit _ _ _ _ sample_body_posted). Defined.

Lemma posted_comment_is_cleaned_up_witness :
  "IC_9"
  ∈ PullRequest.RemoveCommentsByLookupText
      [ {| PullRequest.id := "IC_8"; PullRequest.body := "LGTM";
           PullRequest.isMinimized := false |};
        {| PullRequest.id := "IC_9"; PullRequest.body := sample_body;
           PullRequest.isMinimized := false |} ]
      COMMENT_FOOTER.
Proof.
  refine (posted_comment_is_cleaned_up _ _ _ _ _
            {| PullRequest.id := "IC_9"; PullRequest.body := sample_body;
               PullRequest.isMinimized := false |}
            sample_body_posted _ eq_refl).
  rewrite !elem_of_cons. auto.
Defined.

Lemma cleanup_is_a_filter_witness :
  sanitize_diff acl_patch
  = "--- aws_s3_bucket.x" +:+ nl +:+
    "+++ aws_s3_bucket.x" +:+ tab +:+ "Update" +:+ nl +:+
    "-acl: private" +:+ nl +:+
    "+acl: public" +:+ nl.
Proof.
  rewrite cleanup_is_a_filter; [vm_compute; reflexivity| |].
  { vm_compute. repeat split. }
  apply (proj1 (Forall_forall
                  (λ l, kept_line l = true →
                        strip_prefix "+{}" l = None ∧ strip_prefix "-{}" l = None)
                  (lines acl_patch))).
  let ls := eval vm_compute in (lines acl_patch) in
  change (lines acl_patch) with ls.
  repeat (apply List.Forall_cons;
            [intros Hk; vm_compute in Hk; try discriminate;
             vm_compute; split; reflexivity|]).
  apply List.Forall_nil.
Defined.

Lemma cleanup_idempotent_witness :
  sanitize_diff (sanitize_diff acl_patch) = sanitize_diff acl_patch.
Proof.
  apply cleanup_idempotent.
  { vm_compute. repeat split. }
  apply (proj1 (Forall_forall
                  (λ l, kept_line l = true →
                        strip_prefix "+{}" l = None ∧ strip_prefix "-{}" l = None)
                  (lines acl_patch))).
  let ls := eval vm_compute in (lines acl_patch) in
  change (lines acl_patch) with ls.
  repeat (apply List.Forall_cons;
            [intros Hk; vm_compute in Hk; try discriminate;
             vm_compute; split; reflexivity|]).
  apply List.Forall_nil.
Defined.

(** The search on [sample_tree] with the depth limit of the run, 2: the
    plan of the lookup directory, then that of [envs/dev]; the directory
    named like a plan is searched but not returned, and the plan four
    levels down is out of reach. *)
Example findTFPlans_sample :
  findTFPlans sample_join "." "tfplan.json" 2 sample_tree
  = Some ["./tfplan.json"; "./envs/dev/tfplan.json"]
  ∧ findTFPlans sample_join "." "tfplan.json" 4 sample_tree
    = Some ["./tfplan.json"; "./envs/dev/tfplan.json";
            "./envs/dev/modules/vpc/tfplan.json"].
Proof. by vm_compute. Qed.

Example cleanup_sample :
  PullRequest.RemoveCommentsByLookupText sample_comments COMMENT_FOOTER
  = ["IC_2"].
Proof. by vm_compute. Qed.
